(** * Relationship inference of the Prisma schema processor

    A shallow embedding of [createDBSchemaSpec.js] (the three relationship
    classifiers [getManyToManyRelations], [getOneToManyRelations] and
    [getOneToOneRelations]) and of the relationship map built by
    [generateRelationshipsMarkdown] in the Markdown generator, followed by
    the properties of the specification stated over that embedding.

    Strings are [String.string].  Prisma identifiers are ASCII (a letter
    followed by letters, digits and underscores), so [toLowerCase] and
    [toUpperCase] act on the ASCII letters and leave every other
    byte unchanged. *)

From Stdlib Require Import String Ascii List Bool Arith ZArith Lia.
Import ListNotations.
Open Scope string_scope.
Open Scope bool_scope.
Open Scope list_scope.

(* ================================================================= *)
(** ** The JavaScript runtime pieces the classifiers rely on *)

Module Js.

(** The only exception the classifiers can raise: reading a property of
    [undefined]. *)
Inductive Error : Type := TypeError.

(** Outcome of evaluating a piece of code: a value, or a thrown error. *)
Inductive completion (A : Type) : Type :=
| Normal (a : A)
| Throw (e : Error).
Arguments Normal {A} a.
Arguments Throw {A} e.

Definition bind {A B} (c : completion A) (k : A -> completion B)
  : completion B :=
  match c with
  | Normal a => k a
  | Throw e => Throw e
  end.

(** [Array.prototype.forEach] with a callback that updates a captured
    accumulator and may throw: the first throw aborts the loop. *)
Fixpoint forEach {A S} (cb : S -> A -> completion S) (l : list A) (s : S)
  : completion S :=
  match l with
  | [] => Normal s
  | x :: l' => bind (cb s x) (forEach cb l')
  end.

Definition lowerChar (c : ascii) : ascii :=
  let n := nat_of_ascii c in
  if ((65 <=? n) && (n <=? 90))%nat then ascii_of_nat (n + 32) else c.

Definition upperChar (c : ascii) : ascii :=
  let n := nat_of_ascii c in
  if ((97 <=? n) && (n <=? 122))%nat then ascii_of_nat (n - 32) else c.

Fixpoint toLowerCase (s : string) : string :=
  match s with
  | EmptyString => EmptyString
  | String c s' => String (lowerChar c) (toLowerCase s')
  end.

(** [s.includes(t)]: [t] occurs in [s] as a contiguous substring. *)
Fixpoint includes (s t : string) : bool :=
  String.prefix t s
  || match s with
     | EmptyString => false
     | String _ s' => includes s' t
     end.

(** A plain object with string values, as the ordered list of its own
    properties.  Writing an existing key replaces the value in place;
    a new key is appended. *)
Definition object : Type := list (string * string).

Fixpoint set (o : object) (k v : string) : object :=
  match o with
  | [] => [(k, v)]
  | (k', v') :: o' =>
      if String.eqb k' k then (k', v) :: o' else (k', v') :: set o' k v
  end.

Fixpoint get (o : object) (k : string) : option string :=
  match o with
  | [] => None
  | (k', v') :: o' => if String.eqb k' k then Some v' else get o' k
  end.

(** A property read spliced into a template literal. *)
Definition interpolate (v : option string) : string :=
  match v with
  | Some s => s
  | None => "undefined"
  end.

End Js.

Notation "x <- c ;; k" := (Js.bind c (fun x => k))
  (at level 61, c at next level, right associativity).

(* ================================================================= *)
(** ** The schema graph (the DMMF data model) *)

Inductive FieldKind : Type := scalar | object | enum | unsupported.

Definition kind_eqb (a b : FieldKind) : bool :=
  match a, b with
  | scalar, scalar | object, object | enum, enum
  | unsupported, unsupported => true
  | _, _ => false
  end.

Module Field.
Record t : Type := mk {
  name : string;
  kind : FieldKind;
  type : string;
  isList : bool;
  isRequired : bool;
  isId : bool;
  isUnique : bool;
  relationName : option string
}.
End Field.

Module Model.
Record t : Type := mk {
  name : string;
  fields : list Field.t
}.
End Model.

Record Datamodel : Type := { models : list Model.t }.
Record DMMF : Type := { datamodel : Datamodel }.

(** [a === b] on the optional [relationName] ([undefined] when absent). *)
Definition relationName_eqb (a b : option string) : bool :=
  match a, b with
  | Some x, Some y => String.eqb x y
  | None, None => true
  | _, _ => false
  end.

(* ================================================================= *)
(** ** The relationship records *)

Module Ref.
(** [{ name, field }] *)
Record t : Type := mk { name : string; field : string }.

Definition eqb (a b : t) : bool :=
  String.eqb (name a) (name b) && String.eqb (field a) (field b).
End Ref.

Record ManyToMany : Type := {
  relationTable : Ref.t * Ref.t;
  junctionTable : Js.object
}.

Record OneToMany : Type := { many : Ref.t; one : Ref.t }.

Record OneToManyResult : Type := { manyToOne : list OneToMany }.

Record OneToOne : Type := { table_one : Ref.t; table_two : Ref.t }.

(* ================================================================= *)
(** ** getManyToManyRelations *)

Definition isObject (f : Field.t) : bool := kind_eqb (Field.kind f) object.
Definition isScalar (f : Field.t) : bool := kind_eqb (Field.kind f) scalar.

(** [model.fields.filter(field => field.kind === 'object')] *)
Definition objectFields (model : Model.t) : list Field.t :=
  filter isObject (Model.fields model).

(** [junctionModel.fields.filter(field => field.kind === 'scalar')] *)
Definition scalarFields (model : Model.t) : list Field.t :=
  filter isScalar (Model.fields model).

(** Step 1: the models with exactly two object fields. *)
Definition junctionModels (dmmf : DMMF) : list Model.t :=
  filter (fun model => (length (objectFields model) =? 2)%nat)
         (models (datamodel dmmf)).

(** [models.find(m => m.name === n)] *)
Definition findModel (ms : list Model.t) (n : string) : option Model.t :=
  find (fun m => String.eqb (Model.name m) n) ms.

(** Step 2: the reciprocal list field of [related] pointing back to the
    junction model. *)
Definition reciprocalListField (related junctionModel : Model.t)
  : option Field.t :=
  find (fun f => isObject f
                 && String.eqb (Field.type f) (Model.name junctionModel)
                 && Field.isList f)
       (Model.fields related).

(** [f.name.toLowerCase().includes(relatedModel.name.toLowerCase())] *)
Definition nameMentions (related : Model.t) (f : Field.t) : bool :=
  Js.includes (Js.toLowerCase (Field.name f))
              (Js.toLowerCase (Model.name related)).

(** [o.name] where [o] may be [undefined]. *)
Definition nameOf (o : option Field.t) : Js.completion string :=
  match o with
  | Some f => Js.Normal (Field.name f)
  | None => Js.Throw Js.TypeError
  end.

(** [scalarFields.find(f => ...)?.name || scalarFields[i].name] *)
Definition sideField (scalars : list Field.t) (related : Model.t) (i : nat)
  : Js.completion string :=
  match find (nameMentions related) scalars with
  | Some f =>
      if String.eqb (Field.name f) "" then nameOf (nth_error scalars i)
      else Js.Normal (Field.name f)
  | None => nameOf (nth_error scalars i)
  end.

Definition fieldKey (related : Model.t) : string :=
  (Model.name related ++ "Field")%string.

(** The body of the [forEach] callback for one junction candidate:
    [Normal None] is an early [return], [Normal (Some r)] is the record
    that gets pushed, [Throw] is an uncaught exception. *)
Definition junctionEntry (dmmf : DMMF) (junctionModel : Model.t)
  : Js.completion (option ManyToMany) :=
  match objectFields junctionModel with
  | [field1; field2] =>
      match findModel (models (datamodel dmmf)) (Field.type field1),
            findModel (models (datamodel dmmf)) (Field.type field2) with
      | Some relatedModel1, Some relatedModel2 =>
          match reciprocalListField relatedModel1 junctionModel,
                reciprocalListField relatedModel2 junctionModel with
          | Some reciprocalField1, Some reciprocalField2 =>
              let scalars := scalarFields junctionModel in
              v1 <- sideField scalars relatedModel1 0 ;;
              v2 <- sideField scalars relatedModel2 1 ;;
              Js.Normal (Some {|
                relationTable :=
                  (Ref.mk (Model.name relatedModel1)
                          (Field.name reciprocalField1),
                   Ref.mk (Model.name relatedModel2)
                          (Field.name reciprocalField2));
                junctionTable :=
                  Js.set
                    (Js.set [("name", Model.name junctionModel)]
                            (fieldKey relatedModel1) v1)
                    (fieldKey relatedModel2) v2 |})
          | _, _ => Js.Normal None
          end
      | _, _ => Js.Normal None
      end
  | _ => Js.Normal None
  end.

Definition junctionCallback (dmmf : DMMF)
  (manyToManyRelations : list ManyToMany) (junctionModel : Model.t)
  : Js.completion (list ManyToMany) :=
  e <- junctionEntry dmmf junctionModel ;;
  Js.Normal (match e with
             | Some r => manyToManyRelations ++ [r]
             | None => manyToManyRelations
             end).

Definition getManyToManyRelations (dmmf : DMMF)
  : Js.completion (list ManyToMany) :=
  Js.forEach (junctionCallback dmmf) (junctionModels dmmf) [].

(* ================================================================= *)
(** ** getOneToManyRelations *)

(** The reciprocal field searched by both [getOneToManyRelations] and
    [getOneToOneRelations]: a singular object field of [relatedModel]
    typed as [model] and carrying the relation name of [field]. *)
Definition reciprocalField (relatedModel model : Model.t) (field : Field.t)
  : option Field.t :=
  find (fun f => isObject f
                 && negb (Field.isList f)
                 && String.eqb (Field.type f) (Model.name model)
                 && relationName_eqb (Field.relationName f)
                                     (Field.relationName field))
       (Model.fields relatedModel).

Definition sameOneToMany (oneName oneField manyName manyField : string)
  (rel : OneToMany) : bool :=
  String.eqb (Ref.name (one rel)) oneName
  && String.eqb (Ref.field (one rel)) oneField
  && String.eqb (Ref.name (many rel)) manyName
  && String.eqb (Ref.field (many rel)) manyField.

(** The body of the inner [for (const field of model.fields)] loop. *)
Definition oneToManyField (ms : list Model.t) (model : Model.t)
  (oneToMany : list OneToMany) (field : Field.t) : list OneToMany :=
  if isObject field
     && Field.isList field
     && existsb (fun m => String.eqb (Model.name m) (Field.type field)) ms
  then
    match findModel ms (Field.type field) with
    | None => oneToMany
    | Some relatedModel =>
        match reciprocalField relatedModel model field with
        | Some reciprocal =>
            let isDuplicate :=
              existsb (sameOneToMany (Model.name model) (Field.name field)
                                     (Model.name relatedModel)
                                     (Field.name reciprocal))
                      oneToMany in
            if negb isDuplicate then
              oneToMany ++
              [ {| many := Ref.mk (Model.name relatedModel)
                                  (Field.name reciprocal);
                   one := Ref.mk (Model.name model) (Field.name field) |} ]
            else oneToMany
        | None => oneToMany
        end
    end
  else oneToMany.

Definition oneToManyModel (ms : list Model.t) (oneToMany : list OneToMany)
  (model : Model.t) : list OneToMany :=
  fold_left (oneToManyField ms model) (Model.fields model) oneToMany.

Definition getOneToManyRelations (dmmf : DMMF) : OneToManyResult :=
  let ms := models (datamodel dmmf) in
  {| manyToOne := fold_left (oneToManyModel ms) ms [] |}.

(* ================================================================= *)
(** ** getOneToOneRelations *)

Definition sameOneToOne (n1 f1 n2 f2 : string) (rel : OneToOne) : bool :=
  String.eqb (Ref.name (table_one rel)) n1
  && String.eqb (Ref.field (table_one rel)) f1
  && String.eqb (Ref.name (table_two rel)) n2
  && String.eqb (Ref.field (table_two rel)) f2.

(** The callback of the inner [model.fields.forEach]. *)
Definition oneToOneField (ms : list Model.t) (model : Model.t)
  (oneToOne : list OneToOne) (field : Field.t) : list OneToOne :=
  if isObject field && negb (Field.isList field) then
    let tableOneName := Model.name model in
    let tableTwoName := Field.type field in
    match findModel ms tableTwoName with
    | None => oneToOne
    | Some relatedModel =>
        match reciprocalField relatedModel model field with
        | Some relatedField =>
            let isDuplicate :=
              existsb (fun rel =>
                         sameOneToOne tableOneName (Field.name field)
                                      tableTwoName (Field.name relatedField)
                                      rel
                         || sameOneToOne tableTwoName
                                         (Field.name relatedField)
                                         tableOneName (Field.name field) rel)
                      oneToOne in
            if negb isDuplicate then
              oneToOne ++
              [ {| table_one := Ref.mk tableOneName (Field.name field);
                   table_two := Ref.mk tableTwoName
                                       (Field.name relatedField) |} ]
            else oneToOne
        | None => oneToOne
        end
    end
  else oneToOne.

Definition oneToOneModel (ms : list Model.t) (oneToOne : list OneToOne)
  (model : Model.t) : list OneToOne :=
  fold_left (oneToOneField ms model) (Model.fields model) oneToOne.

Definition getOneToOneRelations (dmmf : DMMF) : list OneToOne :=
  let ms := models (datamodel dmmf) in
  fold_left (oneToOneModel ms) ms [].

(* ================================================================= *)
(** ** The relationship map of the Markdown generator *)

(** [capitalizeFirstLetter], for a string whose first character is ASCII
    (as entity and field names are): [toUpperCase] is modelled on the ASCII
    letters. *)
Definition capitalizeFirstLetter (str : string) : string :=
  match str with
  | EmptyString => EmptyString
  | String c rest => String (Js.upperChar c) rest
  end.

Record Entry : Type := {
  entity1 : string;
  relationship : string;
  entity2 : string;
  details : string
}.

(** A [Map] from entity name to its list of entries, in insertion order. *)
Definition RelMap : Type := list (string * list Entry).

Fixpoint pushEntry (map : RelMap) (k : string) (entry : Entry) : RelMap :=
  match map with
  | [] => [(k, [entry])]
  | (k', es) :: map' =>
      if String.eqb k' k then (k', es ++ [entry]) :: map'
      else (k', es) :: pushEntry map' k entry
  end.

(** [addRelationship]: create the key with an empty list when missing,
    then push the entry onto the list stored under [entity1]. *)
Definition addRelationship (map : RelMap)
  (e1 rel e2 det : string) : RelMap :=
  pushEntry map e1
    {| entity1 := e1; relationship := rel; entity2 := e2; details := det |}.

(** The classifier outputs as the generator reads them back. *)
Record Data : Type := {
  manyToMany : list ManyToMany;
  oneToMany : OneToManyResult;
  oneToOne : list OneToOne
}.

(** [new Set(...).has(x)] over property reads that may be [undefined]. *)
Definition has (s : list (option string)) (x : string) : bool :=
  existsb (fun y => match y with
                    | Some z => String.eqb z x
                    | None => false
                    end) s.

Section Markdown.

(** The [pluralize] package is an external dependency. *)
Variable pluralize : string -> string.

Definition pluralizeWord (str : string) : string := pluralize str.

(** Step 1 *)
Definition junctionTableNames (data : Data) : list (option string) :=
  map (fun relation => Js.get (junctionTable relation) "name")
      (manyToMany data).

(** Step 2 *)
Definition processOneToMany (names : list (option string))
  (map : RelMap) (relation : OneToMany) : RelMap :=
  let many_ := capitalizeFirstLetter (Ref.name (many relation)) in
  let one_ := capitalizeFirstLetter (Ref.name (one relation)) in
  let oneField := Ref.field (one relation) in
  if has names many_ || has names one_ then map
  else
    let detailsMany :=
      (pluralizeWord many_ ++ " belong to a " ++ one_)%string in
    let map1 := addRelationship map many_ ">---" one_ detailsMany in
    let detailsOne :=
      (one_ ++ " has many "
       ++ capitalizeFirstLetter (pluralizeWord oneField))%string in
    addRelationship map1 one_ "---<" many_ detailsOne.

(** Step 3 *)
Definition processOneToOne (names : list (option string))
  (map : RelMap) (relation : OneToOne) : RelMap :=
  let t1 := capitalizeFirstLetter (Ref.name (table_one relation)) in
  let field_one := Ref.field (table_one relation) in
  let t2 := capitalizeFirstLetter (Ref.name (table_two relation)) in
  let field_two := Ref.field (table_two relation) in
  if has names t1 || has names t2 then map
  else
    let detailsOne :=
      (t1 ++ " has one " ++ capitalizeFirstLetter field_one)%string in
    let map1 := addRelationship map t1 "----" t2 detailsOne in
    let detailsTwo :=
      (t2 ++ " has one " ++ capitalizeFirstLetter field_two)%string in
    addRelationship map1 t2 "----" t1 detailsTwo.

(** Step 4 *)
Definition processManyToMany (names : list (option string))
  (map : RelMap) (relation : ManyToMany) : RelMap :=
  let e1 :=
    capitalizeFirstLetter (Ref.name (fst (relationTable relation))) in
  let e2 :=
    capitalizeFirstLetter (Ref.name (snd (relationTable relation))) in
  let junctionName :=
    Js.interpolate (Js.get (junctionTable relation) "name") in
  if has names e1 || has names e2 then map
  else
    let det :=
      (e1 ++ " has many " ++ pluralizeWord e2 ++ " via "
       ++ junctionName)%string in
    let map1 := addRelationship map e1 ">--<" e2 det in
    let reverseDetails :=
      (e2 ++ " has many " ++ pluralizeWord e1 ++ " via "
       ++ junctionName)%string in
    addRelationship map1 e2 ">--<" e1 reverseDetails.

(** The [realEntityRelationshipsMap] once steps 1 to 4 of
    [generateRelationshipsMarkdown] have run. *)
Definition realEntityRelationshipsMap (data : Data) : RelMap :=
  let names := junctionTableNames data in
  let m2 := fold_left (processOneToMany names)
                      (manyToOne (oneToMany data)) [] in
  let m3 := fold_left (processOneToOne names) (oneToOne data) m2 in
  fold_left (processManyToMany names) (manyToMany data) m3.

Definition entries (map : RelMap) : list Entry := concat (List.map snd map).

End Markdown.

(* ================================================================= *)
(** ** Schema graphs used as test inputs *)

Definition scalarField (n ty : string) : Field.t :=
  Field.mk n scalar ty false true false false None.

Definition idField : Field.t :=
  Field.mk "id" scalar "Int" false true true false None.

Definition objectField (n ty : string) (list_ : bool) (rel : option string)
  : Field.t :=
  Field.mk n object ty list_ (negb list_) false false rel.

Definition graph (ms : list Model.t) : DMMF :=
  {| datamodel := {| models := ms |} |}.

(** Scenario A: [Department { id, employees: Employee[] }] and
    [Employee { id, department: Department? }], both relation fields
    carrying the same relation name [rel]. *)
Definition employeesOf (rel : option string) : Field.t :=
  objectField "employees" "Employee" true rel.

Definition departmentOf (rel : option string) : Field.t :=
  objectField "department" "Department" false rel.

Definition departmentA (rel : option string) : Model.t :=
  Model.mk "Department" [ idField; employeesOf rel ].

Definition employeeA (rel : option string) : Model.t :=
  Model.mk "Employee" [ idField; departmentOf rel ].

Definition scenarioA (rel : option string) : DMMF :=
  graph [ departmentA rel; employeeA rel ].

(** The schema of the README: [Employee], [Department], [Profile],
    [Project] and the junction model [EmployeeProject]. *)
Definition employee : Model.t :=
  Model.mk "Employee"
    [ idField;
      scalarField "name" "String";
      scalarField "email" "String";
      objectField "department" "Department" false
                  (Some "DepartmentToEmployee");
      scalarField "departmentId" "Int";
      objectField "profile" "Profile" false (Some "EmployeeProfile");
      objectField "employeeProjects" "EmployeeProject" true
                  (Some "EmployeeToEmployeeProject");
      scalarField "createdAt" "DateTime";
      scalarField "updatedAt" "DateTime" ].

Definition department : Model.t :=
  Model.mk "Department"
    [ idField;
      scalarField "name" "String";
      objectField "employees" "Employee" true (Some "DepartmentToEmployee");
      scalarField "createdAt" "DateTime";
      scalarField "updatedAt" "DateTime" ].

Definition profile : Model.t :=
  Model.mk "Profile"
    [ idField;
      scalarField "bio" "String";
      objectField "employee" "Employee" false (Some "EmployeeProfile");
      scalarField "employeeId" "Int";
      scalarField "createdAt" "DateTime";
      scalarField "updatedAt" "DateTime" ].

Definition project : Model.t :=
  Model.mk "Project"
    [ idField;
      scalarField "name" "String";
      objectField "employeeProjects" "EmployeeProject" true
                  (Some "EmployeeProjectToProject");
      scalarField "createdAt" "DateTime";
      scalarField "updatedAt" "DateTime" ].

Definition employeeProject : Model.t :=
  Model.mk "EmployeeProject"
    [ idField;
      objectField "employee" "Employee" false
                  (Some "EmployeeToEmployeeProject");
      scalarField "employeeId" "Int";
      objectField "project" "Project" false
                  (Some "EmployeeProjectToProject");
      scalarField "projectId" "Int";
      scalarField "assignedAt" "DateTime" ].

Definition readmeSchema : DMMF :=
  graph [ employee; department; profile; project; employeeProject ].

(** What [getManyToManyRelations] returns on the README schema. *)
Definition readmeManyToMany : list ManyToMany :=
  [ {| relationTable :=
         (Ref.mk "Employee" "employeeProjects",
          Ref.mk "Project" "employeeProjects");
       junctionTable :=
         [ ("name", "EmployeeProject");
           ("EmployeeField", "employeeId");
           ("ProjectField", "projectId") ]%string |} ].

(** A schema with two implicit many-to-many relations: [Post] has exactly
    two object fields, both lists, and the single scalar field [id]. *)
Definition post : Model.t :=
  Model.mk "Post"
    [ idField;
      objectField "tags" "Tag" true (Some "PostToTag");
      objectField "categories" "Category" true (Some "CategoryToPost") ].

Definition tag : Model.t :=
  Model.mk "Tag"
    [ idField; objectField "posts" "Post" true (Some "PostToTag") ].

Definition category : Model.t :=
  Model.mk "Category"
    [ idField; objectField "posts" "Post" true (Some "CategoryToPost") ].

Definition implicitSchema : DMMF := graph [ post; tag; category ].

(** One-to-one input with two relations leaving the same model: [Person]
    has exactly two object fields and is not a junction table. *)
Definition person : Model.t :=
  Model.mk "Person"
    [ idField;
      objectField "passport" "Passport" false (Some "PassportToPerson");
      objectField "licence" "Licence" false (Some "LicenceToPerson") ].

Definition passport : Model.t :=
  Model.mk "Passport"
    [ idField;
      objectField "owner" "Person" false (Some "PassportToPerson") ].

Definition licence : Model.t :=
  Model.mk "Licence"
    [ idField;
      objectField "owner" "Person" false (Some "LicenceToPerson") ].

Definition documentsSchema : DMMF := graph [ person; passport; licence ].

(** A self-referencing junction: both object fields of [Friendship] point
    to [User], and no scalar field mentions it. *)
Definition user : Model.t :=
  Model.mk "User"
    [ idField;
      objectField "friendships" "Friendship" true (Some "Initiator");
      objectField "friendOf" "Friendship" true (Some "Receiver") ].

Definition friendship : Model.t :=
  Model.mk "Friendship"
    [ idField;
      objectField "initiator" "User" false (Some "Initiator");
      scalarField "initiatorId" "Int";
      objectField "receiver" "User" false (Some "Receiver");
      scalarField "receiverId" "Int" ].

Definition friendshipSchema : DMMF := graph [ user; friendship ].

(** An object field without any reverse side. *)
Definition customer : Model.t := Model.mk "Customer" [ idField ].

Definition invoice : Model.t :=
  Model.mk "Invoice"
    [ idField;
      objectField "customer" "Customer" false (Some "CustomerToInvoice") ].

Definition invoiceSchema : DMMF := graph [ invoice; customer ].

(* ================================================================= *)
(** ** Notions used to state the properties *)

(** The junction-table shape tested inline by [getManyToManyRelations]:
    exactly two object fields, both referenced models exist, and each of
    them has a list-typed object field pointing back.  The result is the
    two sides with their reciprocal fields, in the declaration order of
    the two object fields. *)
Definition junctionSides (dmmf : DMMF) (junctionModel : Model.t)
  : option ((Model.t * Field.t) * (Model.t * Field.t)) :=
  match objectFields junctionModel with
  | [field1; field2] =>
      match findModel (models (datamodel dmmf)) (Field.type field1),
            findModel (models (datamodel dmmf)) (Field.type field2) with
      | Some relatedModel1, Some relatedModel2 =>
          match reciprocalListField relatedModel1 junctionModel,
                reciprocalListField relatedModel2 junctionModel with
          | Some reciprocalField1, Some reciprocalField2 =>
              Some ((relatedModel1, reciprocalField1),
                    (relatedModel2, reciprocalField2))
          | _, _ => None
          end
      | _, _ => None
      end
  | _ => None
  end.

Definition isJunctionTable (dmmf : DMMF) (m : Model.t) : bool :=
  match junctionSides dmmf m with
  | Some _ => true
  | None => false
  end.

(** The records one junction candidate contributes to the output. *)
Definition recordsOf (dmmf : DMMF) (junctionModel : Model.t)
  : list ManyToMany :=
  match junctionEntry dmmf junctionModel with
  | Js.Normal (Some r) => [r]
  | _ => []
  end.

(** [relation.junctionTable.name] *)
Definition junctionName (relation : ManyToMany) : option string :=
  Js.get (junctionTable relation) "name".

Definition hasJunctionName (n : string) (relation : ManyToMany) : bool :=
  match junctionName relation with
  | Some x => String.eqb x n
  | None => false
  end.

(** The pair of entity names of a many-to-many record, in order. *)
Definition direction (relation : ManyToMany) : string * string :=
  (Ref.name (fst (relationTable relation)),
   Ref.name (snd (relationTable relation))).

(** A one-to-one record with its two sides exchanged. *)
Definition swap (rel : OneToOne) : OneToOne :=
  {| table_one := table_two rel; table_two := table_one rel |}.



(** The three classifier outputs of one run, as handed to the Markdown
    generator. *)
Definition classified (dmmf : DMMF) (rs : list ManyToMany) : Data :=
  {| manyToMany := rs;
     oneToMany := getOneToManyRelations dmmf;
     oneToOne := getOneToOneRelations dmmf |}.

(** Junction exclusion at the level of the classifier outputs: no
    junction table (two distinct sides) is named by a one-to-many or a
    one-to-one record. *)
Definition junctionExclusion (dmmf : DMMF) : Prop :=
  forall J A g1 B g2,
    In J (models (datamodel dmmf)) ->
    junctionSides dmmf J = Some ((A, g1), (B, g2)) ->
    Model.name A <> Model.name B ->
    (forall rel, In rel (manyToOne (getOneToManyRelations dmmf)) ->
                 Ref.name (one rel) <> Model.name J
                 /\ Ref.name (many rel) <> Model.name J)
    /\ (forall rel, In rel (getOneToOneRelations dmmf) ->
                    Ref.name (table_one rel) <> Model.name J
                    /\ Ref.name (table_two rel) <> Model.name J).

(** The entries of a map all name entities outside [names]. *)
Definition avoids (names : list (option string)) (map : RelMap) : Prop :=
  forall e, In e (entries map) ->
            has names (entity1 e) = false /\ has names (entity2 e) = false.

(** [r] is the record of direction ([a], [b]) through junction [j]. *)
Definition isRecordFor (a b j : string) (r : ManyToMany) : bool :=
  String.eqb (fst (direction r)) a
  && String.eqb (snd (direction r)) b
  && hasJunctionName j r.

(** Two directional records per junction table: exactly one record for
    (A, B, J) and exactly one for (B, A, J). *)
Definition twoDirectional (dmmf : DMMF) : Prop :=
  forall rs, getManyToManyRelations dmmf = Js.Normal rs ->
  forall J A g1 B g2,
    In J (models (datamodel dmmf)) ->
    junctionSides dmmf J = Some ((A, g1), (B, g2)) ->
    Model.name A <> Model.name B ->
    length (filter (isRecordFor (Model.name A) (Model.name B) (Model.name J))
                   rs) = 1
    /\ length (filter (isRecordFor (Model.name B) (Model.name A)
                                   (Model.name J)) rs) = 1.

(** [field] of [model] is a list-typed object field whose type resolves
    to [relatedModel], where [reciprocal] is its singular reciprocal. *)
Definition listRelation (dmmf : DMMF) (model : Model.t) (field : Field.t)
  (relatedModel : Model.t) (reciprocal : Field.t) : Prop :=
  In model (models (datamodel dmmf))
  /\ In field (Model.fields model)
  /\ Field.kind field = object
  /\ Field.isList field = true
  /\ findModel (models (datamodel dmmf)) (Field.type field)
     = Some relatedModel
  /\ reciprocalField relatedModel model field = Some reciprocal.

(** [field] of [model] is a singular object field whose type resolves to
    [relatedModel], where [reciprocal] is its singular reciprocal. *)
Definition singularRelation (dmmf : DMMF) (model : Model.t) (field : Field.t)
  (relatedModel : Model.t) (reciprocal : Field.t) : Prop :=
  In model (models (datamodel dmmf))
  /\ In field (Model.fields model)
  /\ Field.kind field = object
  /\ Field.isList field = false
  /\ findModel (models (datamodel dmmf)) (Field.type field)
     = Some relatedModel
  /\ reciprocalField relatedModel model field = Some reciprocal.

(** The one-to-many record pushed for a list field and its reciprocal. *)
Definition oneToManyRecord (model : Model.t) (field : Field.t)
  (relatedModel : Model.t) (reciprocal : Field.t) : OneToMany :=
  {| many := Ref.mk (Model.name relatedModel) (Field.name reciprocal);
     one := Ref.mk (Model.name model) (Field.name field) |}.

(** The one-to-one record pushed for a singular field and its reciprocal. *)
Definition oneToOneRecord (model : Model.t) (field reciprocal : Field.t)
  : OneToOne :=
  {| table_one := Ref.mk (Model.name model) (Field.name field);
     table_two := Ref.mk (Field.type field) (Field.name reciprocal) |}.

(** The one-to-many sides as the claim words them: [one] is the related
    entity with the reciprocal field, [many] the origin with its list
    field. *)
Definition relatedIsOne (dmmf : DMMF) : Prop :=
  forall model field relatedModel reciprocal,
    listRelation dmmf model field relatedModel reciprocal ->
    In {| one := Ref.mk (Model.name relatedModel) (Field.name reciprocal);
          many := Ref.mk (Model.name model) (Field.name field) |}
       (manyToOne (getOneToManyRelations dmmf)).

(** No two records of the list, at different positions, are equal or equal
    up to exchanging sides. *)
Definition collapsed (l : list OneToOne) : Prop :=
  forall i j a b,
    i < j -> nth_error l i = Some a -> nth_error l j = Some b ->
    b <> a /\ b <> swap a.

(** The type of [field] matches no model of the graph, or the model it
    resolves to has no reciprocal field of the shape [reciprocalIn] looks
    for. *)
Definition unpaired (dmmf : DMMF) (field : Field.t)
  (reciprocalIn : Model.t -> option Field.t) : Prop :=
  findModel (models (datamodel dmmf)) (Field.type field) = None
  \/ exists R, findModel (models (datamodel dmmf)) (Field.type field) = Some R
               /\ reciprocalIn R = None.

(* ================================================================= *)
(** ** The junction-table section of the Markdown generator *)

(** Step 5 of [generateRelationshipsMarkdown] reads, for each many-to-many
    record, the two properties [<name>Field] of its junction object, where
    [<name>] is the entity name of each [relationTable] entry. *)
Definition junctionFields (relation : ManyToMany)
  : option string * option string :=
  let field1Key := (Ref.name (fst (relationTable relation)) ++ "Field")%string in
  let field2Key := (Ref.name (snd (relationTable relation)) ++ "Field")%string in
  (Js.get (junctionTable relation) field1Key,
   Js.get (junctionTable relation) field2Key).

(** The symbol under which the opposite direction of a relationship is
    entered: [">---"] faces ["---<"], the two others face themselves. *)
Definition facing (symbol : string) : string :=
  if String.eqb symbol ">---" then "---<"
  else if String.eqb symbol "---<" then ">---"
  else symbol.

(** Every key of the map is present once, holds a non-empty list, and
    every entry stored under a key has that key as its [entity1]. *)
Definition keyed (map : RelMap) : Prop :=
  NoDup (List.map fst map)
  /\ forall k es, In (k, es) map ->
                  es <> [] /\ forall e, In e es -> entity1 e = k.

(** Every entry of the map faces an entry in the opposite direction. *)
Definition twoWay (map : RelMap) : Prop :=
  forall e, In e (entries map) ->
  exists e', In e' (entries map)
             /\ entity1 e' = entity2 e /\ entity2 e' = entity1 e
             /\ relationship e' = facing (relationship e).

(* ================================================================= *)
(** ** getAllTableFieldsSpec and generateOriginalLine *)

(** A JavaScript number, by what this code observes of it. *)
Record Number : Type := {
  truthy : bool;   (* neither [0] nor [NaN] *)
  text : string;   (* the number spliced into a template literal *)
  json : string    (* [JSON.stringify] of the number *)
}.

Inductive Scalar : Type :=
| VString (s : string)
| VNumber (n : Number)
| VBoolean (b : bool).

(** [field.default] when it is an object; every property may be absent. *)
Module FieldDefault.
Record t : Type := mk {
  kind : option string;
  value : option Scalar;
  name : option string;
  args : option (list Scalar)
}.
End FieldDefault.

(** [field.default]: absent, a scalar, or an object. *)
Inductive Default : Type :=
| NoDefault
| ScalarDefault (s : Scalar)
| ObjectDefault (o : FieldDefault.t).

(** The [defaultValue] computed by [getAllTableFieldsSpec]. *)
Inductive DefaultValue : Type :=
| VNull
| VUndefined
| VScalar (s : Scalar)
| VObject (o : FieldDefault.t).

(** A field of the DMMF with the attributes the specification generator
    reads on top of those the classifiers read. *)
Module DmmfField.
Record t : Type := mk {
  base : Field.t;
  hasDefaultValue : bool;
  default : Default;
  isUpdatedAt : bool;
  references : option (list string)
}.
End DmmfField.

Module DmmfModel.
Record t : Type := mk {
  name : string;
  dbName : option string;
  fields : list DmmfField.t
}.

(** The same model as the classifiers see it. *)
Definition toModel (m : t) : Model.t :=
  Model.mk (name m) (map DmmfField.base (fields m)).
End DmmfModel.

(** The object handed to [generateOriginalLine]. *)
Module LineField.
Record t : Type := mk {
  name : string;
  type : string;
  isList : bool;
  isId : bool;
  isUnique : bool;
  hasDefaultValue : bool;
  defaultValue : DefaultValue;
  isUpdatedAt : bool;
  relationName : option string;
  references : option (list string)
}.
End LineField.

(** One entry of the [fields] object of the output. *)
Module FieldSpec.
Record t : Type := mk {
  name : string;
  kind : FieldKind;
  type : string;
  isList : bool;
  isRequired : bool;
  isId : bool;
  isUnique : bool;
  relationName : option string;
  hasDefaultValue : bool;
  defaultValue : DefaultValue;
  isSystemManaged : bool;
  originalLine : string;
  isRelation : bool
}.
End FieldSpec.

(** One entry of the output object: [{ name, dbName, fields }]. *)
Module ModelSpec.
Record t : Type := mk {
  name : string;
  dbName : option string;
  fields : list (string * FieldSpec.t)
}.
End ModelSpec.

(** [acc[k] = v] on an object whose keys are identifiers: an existing key
    keeps its position and takes the new value, a new key goes last. *)
Fixpoint assign {V : Type} (o : list (string * V)) (k : string) (v : V)
  : list (string * V) :=
  match o with
  | [] => [(k, v)]
  | (k', v') :: o' =>
      if String.eqb k' k then (k', v) :: o' else (k', v') :: assign o' k v
  end.

(** [o[k]] *)
Fixpoint lookup {V : Type} (o : list (string * V)) (k : string) : option V :=
  match o with
  | [] => None
  | (k', v') :: o' => if String.eqb k' k then Some v' else lookup o' k
  end.

Definition truthyScalar (s : Scalar) : bool :=
  match s with
  | VString x => negb (String.eqb x "")
  | VNumber n => truthy n
  | VBoolean b => b
  end.

(** [p === s] for a property that may be absent. *)
Definition propertyIs (p : option string) (s : string) : bool :=
  match p with
  | Some x => String.eqb x s
  | None => false
  end.

(** The extraction of [defaultValue] from [field.default]. *)
Definition extractDefault (d : Default) : DefaultValue :=
  match d with
  | NoDefault => VNull
  | ScalarDefault s => if truthyScalar s then VScalar s else VNull
  | ObjectDefault o =>
      if propertyIs (FieldDefault.kind o) "literal" then
        match FieldDefault.value o with
        | Some s => VScalar s
        | None => VUndefined
        end
      else if propertyIs (FieldDefault.kind o) "now" then
        VScalar (VString "now()")
      else if propertyIs (FieldDefault.kind o) "autoincrement" then
        VScalar (VString "autoincrement()")
      else VObject o
  end.

(** A scalar converted to a string. *)
Definition scalarText (s : Scalar) : string :=
  match s with
  | VString x => x
  | VNumber n => text n
  | VBoolean b => if b then "true" else "false"
  end.

(** A default value spliced into a template literal. *)
Definition valueText (v : DefaultValue) : string :=
  match v with
  | VNull => "null"
  | VUndefined => "undefined"
  | VScalar s => scalarText s
  | VObject _ => "[object Object]"
  end.

(** The double-quote character. *)
Definition quote : string := String (ascii_of_nat 34) EmptyString.

Definition wrapDefault (inner : string) : string :=
  ("@default(" ++ inner ++ ")")%string.

(** The relation directive: the parts joined by single spaces. *)
Definition relationDirective (relationName : string)
  (references : option (list string)) : string :=
  String.concat " "
    ([("@relation(" ++ quote ++ relationName ++ quote)%string]
     ++ match references with
        | Some rs =>
            [("references: [" ++ String.concat ", " rs ++ "]")%string]
        | None => []
        end
     ++ [")"%string]).

Section Generator.

(** [JSON.stringify] of a string. *)
Variable jsonOfString : string -> string.

(** The directives pushed by the [if (field.hasDefaultValue)] block. *)
Definition defaultDirective (type : string) (dv : DefaultValue)
  : Js.completion (list string) :=
  if String.eqb type "Int"
     && match dv with
        | VScalar (VString x) => String.eqb x "autoincrement()"
        | _ => false
        end
  then Js.Normal ["@default(autoincrement())"%string]
  else if String.eqb type "String" then
    let defaultVal :=
      match dv with
      | VScalar (VString x) => (quote ++ x ++ quote)%string
      | _ => valueText dv
      end in
    Js.Normal [wrapDefault defaultVal]
  else if String.eqb type "DateTime" then
    match dv with
    | VScalar (VString x) =>
        if String.eqb x "now()" then Js.Normal ["@default(now())"%string]
        else Js.Normal []
    | VNull => Js.Throw Js.TypeError
    | VObject o =>
        if propertyIs (FieldDefault.name o) "now"
        then Js.Normal ["@default(now())"%string]
        else Js.Normal []
    | _ => Js.Normal []
    end
  else if String.eqb type "Boolean" then
    let defaultVal :=
      match dv with
      | VUndefined => "false"%string
      | _ => valueText dv
      end in
    Js.Normal [wrapDefault defaultVal]
  else
    match dv with
    | VNull => Js.Throw Js.TypeError
    | VObject o =>
        match FieldDefault.args o with
        | None => Js.Throw Js.TypeError
        | Some a =>
            Js.Normal
              [wrapDefault
                 (Js.interpolate (FieldDefault.name o) ++ "("
                  ++ String.concat ", " (map scalarText a) ++ ")")%string]
        end
    | VUndefined => Js.Normal [wrapDefault "undefined"]
    | VScalar (VString x) => Js.Normal [wrapDefault (jsonOfString x)]
    | VScalar (VNumber n) => Js.Normal [wrapDefault (json n)]
    | VScalar (VBoolean b) =>
        Js.Normal [wrapDefault (if b then "true" else "false")]
    end.

(** The list [directives] once every block has run. *)
Definition directivesOf (field : LineField.t)
  : Js.completion (list string) :=
  d <- (if LineField.hasDefaultValue field
        then defaultDirective (LineField.type field)
                              (LineField.defaultValue field)
        else Js.Normal []) ;;
  Js.Normal
    ((if LineField.isId field then ["@id"%string] else [])
     ++ (if LineField.isUnique field then ["@unique"%string] else [])
     ++ d
     ++ (if LineField.isUpdatedAt field then ["@updatedAt"%string] else [])
     ++ match LineField.relationName field with
        | Some rn =>
            if String.eqb rn "" then []
            else [relationDirective rn (LineField.references field)]
        | None => []
        end).

(** The first part: name, type and the list marker. *)
Definition lineHead (field : LineField.t) : string :=
  (LineField.name field ++ " " ++ LineField.type field
   ++ (if LineField.isList field then "[]" else ""))%string.

Definition generateOriginalLine (field : LineField.t)
  : Js.completion string :=
  directives <- directivesOf field ;;
  Js.Normal
    (String.concat " "
       (lineHead field
        :: match directives with
           | [] => []
           | _ :: _ => [String.concat " " directives]
           end)).

(** The body of the inner [reduce] callback up to the assignment: the
    descriptor of one field.  [originalLine &&] is the emptiness test of
    the line. *)
Definition fieldSpec (field : DmmfField.t) : Js.completion FieldSpec.t :=
  let b := DmmfField.base field in
  let defaultValue := extractDefault (DmmfField.default field) in
  let isPrimaryKeySystemManaged :=
    Field.isId b && DmmfField.hasDefaultValue field in
  originalLine <-
    generateOriginalLine
      {| LineField.name := Field.name b;
         LineField.type := Field.type b;
         LineField.isList := Field.isList b;
         LineField.isId := Field.isId b;
         LineField.isUnique := Field.isUnique b;
         LineField.hasDefaultValue := DmmfField.hasDefaultValue field;
         LineField.defaultValue := defaultValue;
         LineField.isUpdatedAt := DmmfField.isUpdatedAt field;
         LineField.relationName := Field.relationName b;
         LineField.references := DmmfField.references field |} ;;
  let isUpdatedAtSystemManaged :=
    String.eqb (Field.type b) "DateTime"
    && negb (String.eqb originalLine "")
    && Js.includes originalLine "@updatedAt" in
  let isCreatedAtSystemManaged :=
    String.eqb (Field.type b) "DateTime"
    && negb (String.eqb originalLine "")
    && Js.includes originalLine "@default(now())" in
  let isSystemManaged :=
    isPrimaryKeySystemManaged
    || isUpdatedAtSystemManaged
    || isCreatedAtSystemManaged in
  let isRelation :=
    kind_eqb (Field.kind b) object
    && negb (String.eqb (Field.type b) "Json") in
  Js.Normal
    {| FieldSpec.name := Field.name b;
       FieldSpec.kind := Field.kind b;
       FieldSpec.type := Field.type b;
       FieldSpec.isList := Field.isList b;
       FieldSpec.isRequired := Field.isRequired b;
       FieldSpec.isId := Field.isId b;
       FieldSpec.isUnique := Field.isUnique b;
       FieldSpec.relationName := Field.relationName b;
       FieldSpec.hasDefaultValue := DmmfField.hasDefaultValue field;
       FieldSpec.defaultValue := defaultValue;
       FieldSpec.isSystemManaged := isSystemManaged;
       FieldSpec.originalLine := originalLine;
       FieldSpec.isRelation := isRelation |}.

(** [model.fields.reduce(..., {})] from the accumulator [fieldsAcc]. *)
Fixpoint reduceFields (fs : list DmmfField.t)
  (fieldsAcc : list (string * FieldSpec.t))
  : Js.completion (list (string * FieldSpec.t)) :=
  match fs with
  | [] => Js.Normal fieldsAcc
  | field :: fs' =>
      s <- fieldSpec field ;;
      reduceFields fs'
        (assign fieldsAcc (Field.name (DmmfField.base field)) s)
  end.

(** [dmmf.datamodel.models.reduce(..., {})] from the accumulator [acc]. *)
Fixpoint reduceModels (ms : list DmmfModel.t)
  (acc : list (string * ModelSpec.t))
  : Js.completion (list (string * ModelSpec.t)) :=
  match ms with
  | [] => Js.Normal acc
  | model :: ms' =>
      fs <- reduceFields (DmmfModel.fields model) [] ;;
      reduceModels ms'
        (assign acc (DmmfModel.name model)
           {| ModelSpec.name := DmmfModel.name model;
              ModelSpec.dbName := DmmfModel.dbName model;
              ModelSpec.fields := fs |})
  end.

(** [getAllTableFieldsSpec], on the list [dmmf.datamodel.models]. *)
Definition getAllTableFieldsSpec (ms : list DmmfModel.t)
  : Js.completion (list (string * ModelSpec.t)) :=
  reduceModels ms [].

End Generator.

(** [field.default] is missing or falsy: [0], [NaN], [false] or the empty
    string. *)
Definition falsyDefault (d : Default) : bool :=
  match d with
  | NoDefault => true
  | ScalarDefault s => negb (truthyScalar s)
  | ObjectDefault _ => false
  end.

(** The cases in which building the line of a field reads a property of
    [null] or of [undefined]. *)
Definition lineThrows (field : DmmfField.t) : bool :=
  let ty := Field.type (DmmfField.base field) in
  DmmfField.hasDefaultValue field
  && match extractDefault (DmmfField.default field) with
     | VNull => negb (String.eqb ty "String" || String.eqb ty "Boolean")
     | VObject o =>
         negb (String.eqb ty "String" || String.eqb ty "DateTime"
               || String.eqb ty "Boolean")
         && match FieldDefault.args o with
            | None => true
            | Some _ => false
            end
     | _ => false
     end.

(** Inputs of the specification generator used as test inputs. *)
Definition zero : Number := {| truthy := false; text := "0"; json := "0" |}.

Definition plainField (n : string) (ty : string) : DmmfField.t :=
  DmmfField.mk (scalarField n ty) false NoDefault false None.

Definition counterModel : DmmfModel.t :=
  DmmfModel.mk "Counter" None
    [ DmmfField.mk idField true
        (ObjectDefault
           (FieldDefault.mk None None (Some "autoincrement") (Some [])))
        false None;
      DmmfField.mk (scalarField "count" "Int") true
        (ScalarDefault (VNumber zero)) false None ].

Definition flagField : DmmfField.t :=
  DmmfField.mk (scalarField "active" "Boolean") true
    (ScalarDefault (VBoolean false)) false None.

Definition touchedField : DmmfField.t :=
  DmmfField.mk (scalarField "updatedAt" "DateTime") false NoDefault true None.

Definition noteModel : DmmfModel.t :=
  DmmfModel.mk "Note" (Some "notes")
    [ DmmfField.mk idField true
        (ObjectDefault
           (FieldDefault.mk None None (Some "autoincrement") (Some [])))
        false None;
      plainField "title" "String";
      flagField;
      touchedField ].

(** The object [getAllTableFieldsSpec] passes to [generateOriginalLine]. *)
Definition lineFieldOf (field : DmmfField.t) : LineField.t :=
  {| LineField.name := Field.name (DmmfField.base field);
     LineField.type := Field.type (DmmfField.base field);
     LineField.isList := Field.isList (DmmfField.base field);
     LineField.isId := Field.isId (DmmfField.base field);
     LineField.isUnique := Field.isUnique (DmmfField.base field);
     LineField.hasDefaultValue := DmmfField.hasDefaultValue field;
     LineField.defaultValue := extractDefault (DmmfField.default field);
     LineField.isUpdatedAt := DmmfField.isUpdatedAt field;
     LineField.relationName := Field.relationName (DmmfField.base field);
     LineField.references := DmmfField.references field |}.

(** [field.default] is the function [now()], in either of the two shapes
    the extraction understands: [{ kind: 'now' }] or [{ name: 'now' }]
    without a [kind]. *)
Definition nowDefault (d : Default) : Prop :=
  exists o, d = ObjectDefault o
            /\ (FieldDefault.kind o = Some "now"%string
                \/ (FieldDefault.kind o = None
                    /\ FieldDefault.name o = Some "now"%string)).

Definition createdField : DmmfField.t :=
  DmmfField.mk (scalarField "createdAt" "DateTime") true
    (ObjectDefault (FieldDefault.mk None None (Some "now") (Some [])))
    false None.

(** The descriptor built for [createdField]. *)
Definition createdSpec : FieldSpec.t :=
  FieldSpec.mk "createdAt" scalar "DateTime" false true false false None true
    (VObject (FieldDefault.mk None None (Some "now"%string) (Some [])))
    true "createdAt DateTime @default(now())" false.

(** What [getAllTableFieldsSpec] returns on [noteModel]. *)
Definition noteOutput : list (string * ModelSpec.t) :=
  Eval vm_compute in
    match getAllTableFieldsSpec (fun s => s) [noteModel] with
    | Js.Normal o => o
    | Js.Throw _ => []
    end.

(* ================================================================= *)
(** ** mergeFilesContent *)

Section Files.

(** The file system, and the functions of [fs] and [path] the program
    calls.  Reading and testing for existence leave the file system as it
    is; [readFileSync] returns [None] when it throws; [mkdirSync] and
    [writeFileSync] return the file system they leave behind and whether
    they completed without throwing.  [trim] is [String.prototype.trim]. *)
Variable FileSystem : Type.
Variable resolve : string -> string.
Variable dirname : string -> string.
Variable existsSync : FileSystem -> string -> bool.
Variable readFileSync : FileSystem -> string -> option string.
Variable mkdirSync : FileSystem -> string -> FileSystem * bool.
Variable writeFileSync : FileSystem -> string -> string -> FileSystem * bool.
Variable trim : string -> string.

(** The reading loop: [None] is one of its two [return -1]. *)
Fixpoint readAll (fs : FileSystem) (filePaths : list string)
  (mergedContent : string) : option string :=
  match filePaths with
  | [] => Some mergedContent
  | filePath :: rest =>
      let absolutePath := resolve filePath in
      if negb (existsSync fs absolutePath) then None
      else
        match readFileSync fs absolutePath with
        | None => None
        | Some fileContent =>
            readAll fs rest
                    (mergedContent ++ fileContent ++ String "010" "")%string
        end
  end.

(** [mergeFilesContent]: the exit status and the file system left. *)
Definition mergeFilesContent (fs : FileSystem) (outputFile : string)
  (filePaths : list string) : Z * FileSystem :=
  match readAll fs filePaths "" with
  | None => ((-1)%Z, fs)
  | Some mergedContent =>
      let absoluteOutputPath := resolve outputFile in
      let outputDir := dirname absoluteOutputPath in
      let (fs1, made) :=
        if negb (existsSync fs outputDir) then mkdirSync fs outputDir
        else (fs, true) in
      if made then
        let (fs2, written) :=
          writeFileSync fs1 absoluteOutputPath (trim mergedContent) in
        if written then (0%Z, fs2) else ((-1)%Z, fs2)
      else ((-1)%Z, fs1)
  end.

End Files.

(** The inputs' contents, each followed by a newline, in order. *)
Definition merged (contents : list string) : string :=
  String.concat "" (map (fun c => (c ++ String "010" "")%string) contents).

(** A small in-memory file system used as a test input: files by path,
    a single directory ["/"] that always exists. *)
Definition memExists (fs : list (string * string)) (p : string) : bool :=
  match lookup fs p with
  | Some _ => true
  | None => String.eqb p "/"
  end.

Definition memWrite (fs : list (string * string)) (p c : string)
  : list (string * string) * bool :=
  (assign fs p c, true).

Definition memMkdir (fs : list (string * string)) (p : string)
  : list (string * string) * bool :=
  (fs, true).

Definition memFiles : list (string * string) :=
  [ ("a.txt", "alpha"); ("b.txt", "beta") ]%string.

(** [g] is a singular object field of [R] typed as [E] and carrying the
    relation name of [f]: the reverse side of [f]. *)
Definition reciprocates (R E : Model.t) (f g : Field.t) : Prop :=
  In g (Model.fields R)
  /\ Field.kind g = object
  /\ Field.isList g = false
  /\ Field.type g = Model.name E
  /\ Field.relationName g = Field.relationName f.

(** [Team] has exactly two object fields, a list and a singular one, and
    neither [Member] nor [Lead] holds a list of teams. *)
Definition membersOfTeam : Field.t :=
  objectField "members" "Member" true (Some "MemberToTeam").

Definition leadOfTeam : Field.t :=
  objectField "lead" "Lead" false (Some "LeadToTeam").

Definition teamOfMember : Field.t :=
  objectField "team" "Team" false (Some "MemberToTeam").

Definition teamOfLead : Field.t :=
  objectField "team" "Team" false (Some "LeadToTeam").

Definition team : Model.t :=
  Model.mk "Team" [ idField; membersOfTeam; leadOfTeam ].

Definition member : Model.t := Model.mk "Member" [ idField; teamOfMember ].

Definition lead : Model.t := Model.mk "Lead" [ idField; teamOfLead ].

Definition teamSchema : DMMF := graph [ team; member; lead ].






(** The first character of the string, if any, is an ASCII character. *)
Definition asciiInitial (str : string) : Prop :=
  match str with
  | EmptyString => True
  | String c _ => nat_of_ascii c < 128
  end.

(* ================================================================= *)
(** * Properties *)

(** ** Strings and objects *)

Lemma append_length (s t : string) :
  String.length (s ++ t)%string = String.length s + String.length t.
Proof. induction s as [|c s IH]; simpl; [reflexivity | now rewrite IH]. Qed.

Lemma prefix_spec (t s : string) :
  String.prefix t s = true <-> exists post, s = (t ++ post)%string.
Proof.
  revert s; induction t as [|c t IH]; intros s.
  - split; [intros _; now exists s | intros _; now destruct s].
  - destruct s as [|d s]; simpl.
    + split; [discriminate | intros [post H]; discriminate].
    + destruct (Ascii.ascii_dec c d) as [->|Hne].
      * rewrite IH. split; intros [post H]; exists post.
        -- now rewrite H.
        -- now inversion H.
      * split; [discriminate | intros [post H]; inversion H; congruence].
Qed.

(** [includes] decides the substring relation. *)
Lemma includes_spec (s t : string) :
  Js.includes s t = true <-> exists pre post, s = (pre ++ t ++ post)%string.
Proof.
  induction s as [|c s IH]; cbn [Js.includes].
  - rewrite orb_false_r, prefix_spec. split.
    + intros [post H]; now exists ""%string, post.
    + intros [pre [post H]]. destruct pre; [now exists post | discriminate].
  - rewrite orb_true_iff, prefix_spec, IH. split.
    + intros [[post H] | [pre [post H]]].
      * now exists ""%string, post.
      * exists (String c pre), post. simpl. now rewrite H.
    + intros [pre [post H]]. destruct pre as [|d pre]; simpl in H.
      * left; now exists post.
      * right; exists pre, post. now inversion H.
Qed.



(** A computed key [<Entity>Field] never collides with the key [name]. *)
Lemma fieldKey_not_name (related : Model.t) :
  String.eqb "name" (fieldKey related) = false.
Proof.
  apply String.eqb_neq. intros H.
  apply (f_equal String.length) in H. unfold fieldKey in H.
  rewrite append_length in H. simpl in H. lia.
Qed.

Lemma fieldKey_inj (a b : Model.t) :
  fieldKey a = fieldKey b -> Model.name a = Model.name b.
Proof.
  unfold fieldKey. generalize (Model.name a) (Model.name b).
  intros s; induction s as [|c s IH]; intros [|d t] H; simpl in H.
  - reflexivity.
  - exfalso. apply (f_equal String.length) in H. simpl in H.
    rewrite append_length in H. simpl in H. lia.
  - exfalso. apply (f_equal String.length) in H. simpl in H.
    rewrite append_length in H. simpl in H. lia.
  - inversion H. f_equal. now apply IH.
Qed.

Lemma get_set_same (o : Js.object) (k v : string) :
  Js.get (Js.set o k v) k = Some v.
Proof.
  induction o as [|[k' v'] o IH]; simpl.
  - now rewrite String.eqb_refl.
  - destruct (String.eqb k' k) eqn:E; simpl; rewrite E;
      [reflexivity | exact IH].
Qed.

Lemma get_set_other (o : Js.object) (k k' v : string) :
  k <> k' -> Js.get (Js.set o k v) k' = Js.get o k'.
Proof.
  intros Hne. induction o as [|[k0 v0] o IH]; simpl.
  - apply String.eqb_neq in Hne. now rewrite Hne.
  - destruct (String.eqb k0 k) eqn:E; simpl.
    + apply String.eqb_eq in E; subst k0.
      apply String.eqb_neq in Hne. now rewrite Hne.
    + destruct (String.eqb k0 k'); [reflexivity | exact IH].
Qed.

(** The shape of the junction object literal, by cases on whether the two
    computed keys coincide. *)
Lemma junction_object (n v1 v2 : string) (a b : Model.t) :
  Js.set (Js.set [("name"%string, n)] (fieldKey a) v1) (fieldKey b) v2 =
  if String.eqb (Model.name a) (Model.name b)
  then [("name"%string, n); (fieldKey a, v2)]
  else [("name"%string, n); (fieldKey a, v1); (fieldKey b, v2)].
Proof.
  cbn [Js.set]. rewrite (fieldKey_not_name a). cbn [Js.set].
  rewrite (fieldKey_not_name b).
  destruct (String.eqb (Model.name a) (Model.name b)) eqn:E.
  - apply String.eqb_eq in E. unfold fieldKey. rewrite E.
    now rewrite String.eqb_refl.
  - destruct (String.eqb (fieldKey a) (fieldKey b)) eqn:E'; [|reflexivity].
    apply String.eqb_eq, fieldKey_inj in E'.
    apply String.eqb_neq in E. contradiction.
Qed.

Lemma junction_object_name (n v1 v2 : string) (a b : Model.t) :
  Js.get (Js.set (Js.set [("name"%string, n)] (fieldKey a) v1)
                 (fieldKey b) v2) "name" = Some n.
Proof. rewrite junction_object. now destruct (String.eqb _ _). Qed.

(** ** Lists *)


Lemma find_none_iff {A} (p : A -> bool) (l : list A) :
  find p l = None <-> forall y, In y l -> p y = false.
Proof.
  split; [apply find_none|].
  intros H. destruct (find p l) eqn:E; [|reflexivity].
  apply find_some in E. destruct E as [Hin Hp]. rewrite (H _ Hin) in Hp.
  discriminate.
Qed.

(** In a list with pairwise distinct keys, an element is determined by its
    key. *)
Lemma by_key {A B} (key : A -> B) (l : list A) (a b : A) :
  NoDup (map key l) -> In a l -> In b l -> key a = key b -> a = b.
Proof.
  induction l as [|x l IH]; simpl; [contradiction|].
  intros Hnd Ha Hb E. inversion Hnd as [|? ? Hnotin Hnd']; subst.
  destruct Ha as [->|Ha], Hb as [->|Hb].
  - reflexivity.
  - exfalso. apply Hnotin. rewrite E. now apply in_map.
  - exfalso. apply Hnotin. rewrite <- E. now apply in_map.
  - now apply IH.
Qed.

Lemma findModel_some (ms : list Model.t) (n : string) (m : Model.t) :
  findModel ms n = Some m -> In m ms /\ Model.name m = n.
Proof.
  unfold findModel. intros H. apply find_some in H.
  destruct H as [Hin E]. now apply String.eqb_eq in E.
Qed.

Lemma findModel_unique (ms : list Model.t) (m : Model.t) :
  NoDup (map Model.name ms) -> In m ms ->
  findModel ms (Model.name m) = Some m.
Proof.
  intros Hnd Hin. destruct (findModel ms (Model.name m)) as [m'|] eqn:E.
  - apply findModel_some in E. destruct E as [Hin' E].
    f_equal. now apply (by_key Model.name ms).
  - unfold findModel in E. apply find_none with (x := m) in E; [|assumption].
    now rewrite String.eqb_refl in E.
Qed.

(** ** The many-to-many classifier *)

(** [junctionEntry] is the scalar-field selection applied to the sides
    found by the junction test. *)
Lemma junctionEntry_sides (dmmf : DMMF) (J : Model.t) :
  junctionEntry dmmf J =
  match junctionSides dmmf J with
  | None => Js.Normal None
  | Some ((A, g1), (B, g2)) =>
      v1 <- sideField (scalarFields J) A 0 ;;
      v2 <- sideField (scalarFields J) B 1 ;;
      Js.Normal (Some {|
        relationTable := (Ref.mk (Model.name A) (Field.name g1),
                          Ref.mk (Model.name B) (Field.name g2));
        junctionTable :=
          Js.set (Js.set [("name"%string, Model.name J)] (fieldKey A) v1)
                 (fieldKey B) v2 |})
  end.
Proof.
  unfold junctionEntry, junctionSides.
  destruct (objectFields J) as [|f1 [|f2 [|f3 l]]]; try reflexivity.
  destruct (findModel _ (Field.type f1)) as [A|]; [|reflexivity].
  destruct (findModel _ (Field.type f2)) as [B|]; [|reflexivity].
  destruct (reciprocalListField A J) as [g1|]; [|reflexivity].
  destruct (reciprocalListField B J) as [g2|]; reflexivity.
Qed.

Lemma junctionEntry_emits (dmmf : DMMF) (J : Model.t) (r : ManyToMany) :
  junctionEntry dmmf J = Js.Normal (Some r) ->
  exists A g1 B g2 v1 v2,
    junctionSides dmmf J = Some ((A, g1), (B, g2))
    /\ sideField (scalarFields J) A 0 = Js.Normal v1
    /\ sideField (scalarFields J) B 1 = Js.Normal v2
    /\ r = {| relationTable := (Ref.mk (Model.name A) (Field.name g1),
                                Ref.mk (Model.name B) (Field.name g2));
              junctionTable :=
                Js.set (Js.set [("name"%string, Model.name J)]
                               (fieldKey A) v1)
                       (fieldKey B) v2 |}.
Proof.
  rewrite junctionEntry_sides.
  destruct (junctionSides dmmf J) as [[[A g1] [B g2]]|]; [|discriminate].
  destruct (sideField (scalarFields J) A 0) as [v1|] eqn:E1; [|discriminate].
  destruct (sideField (scalarFields J) B 1) as [v2|] eqn:E2; [|discriminate].
  simpl. intros [= <-]. now exists A, g1, B, g2, v1, v2.
Qed.

Lemma junctionEntry_name (dmmf : DMMF) (J : Model.t) (r : ManyToMany) :
  junctionEntry dmmf J = Js.Normal (Some r) ->
  junctionName r = Some (Model.name J).
Proof.
  intros H. apply junctionEntry_emits in H.
  destruct H as (A & g1 & B & g2 & v1 & v2 & _ & _ & _ & ->).
  apply junction_object_name.
Qed.

Lemma recordsOf_name (dmmf : DMMF) (J : Model.t) (r : ManyToMany) :
  In r (recordsOf dmmf J) -> junctionName r = Some (Model.name J).
Proof.
  unfold recordsOf.
  destruct (junctionEntry dmmf J) as [[r'|]|] eqn:E; simpl; try contradiction.
  intros [<-|[]]. now apply (junctionEntry_name dmmf).
Qed.

(** A normal run pushes, in order, the record of every candidate, and no
    candidate threw. *)
Lemma forEach_junction (dmmf : DMMF) (l : list Model.t)
  (acc rs : list ManyToMany) :
  Js.forEach (junctionCallback dmmf) l acc = Js.Normal rs ->
  rs = acc ++ flat_map (recordsOf dmmf) l
  /\ forall J, In J l -> exists e, junctionEntry dmmf J = Js.Normal e.
Proof.
  revert acc; induction l as [|J l IH]; intros acc; simpl.
  - intros [= <-]. rewrite app_nil_r. split; [reflexivity | contradiction].
  - unfold junctionCallback at 1, recordsOf at 1.
    destruct (junctionEntry dmmf J) as [e|err] eqn:E; simpl; [|discriminate].
    intros H. apply IH in H. destruct H as [-> Hall]. split.
    + destruct e as [r|]; simpl; [now rewrite <- app_assoc | reflexivity].
    + intros J' [<-|Hin]; [now exists e | now apply Hall].
Qed.

(** One throwing candidate makes the whole classifier throw. *)
Lemma forEach_junction_throw (dmmf : DMMF) (l : list Model.t)
  (acc : list ManyToMany) (J : Model.t) :
  In J l -> junctionEntry dmmf J = Js.Throw Js.TypeError ->
  Js.forEach (junctionCallback dmmf) l acc = Js.Throw Js.TypeError.
Proof.
  revert acc; induction l as [|J' l IH]; intros acc; simpl; [contradiction|].
  intros [->|Hin] HJ.
  - unfold junctionCallback. now rewrite HJ.
  - unfold junctionCallback at 1.
    destruct (junctionEntry dmmf J') as [e|[]]; simpl; [|reflexivity].
    now apply IH.
Qed.

Lemma junctionSides_two_fields (dmmf : DMMF) (J : Model.t) s :
  junctionSides dmmf J = Some s -> length (objectFields J) = 2.
Proof.
  unfold junctionSides.
  now destruct (objectFields J) as [|f1 [|f2 [|f3 l]]].
Qed.

Lemma junction_is_candidate (dmmf : DMMF) (J : Model.t) :
  In J (models (datamodel dmmf)) -> isJunctionTable dmmf J = true ->
  In J (junctionModels dmmf).
Proof.
  unfold isJunctionTable, junctionModels. intros Hin H.
  destruct (junctionSides dmmf J) eqn:E; [|discriminate].
  apply filter_In. split; [assumption|].
  apply junctionSides_two_fields in E. now rewrite E.
Qed.

(** Every junction table of a normal run has a record carrying its name. *)
Lemma junction_recorded (dmmf : DMMF) (rs : list ManyToMany) (J : Model.t) :
  getManyToManyRelations dmmf = Js.Normal rs ->
  In J (models (datamodel dmmf)) -> isJunctionTable dmmf J = true ->
  exists r, In r rs /\ junctionEntry dmmf J = Js.Normal (Some r).
Proof.
  unfold getManyToManyRelations. intros Hrun Hin HJ.
  apply forEach_junction in Hrun. destruct Hrun as [-> Hall].
  pose proof (junction_is_candidate dmmf J Hin HJ) as Hc.
  destruct (Hall J Hc) as [e He].
  destruct e as [r|].
  - exists r. split; [|assumption]. simpl. apply in_flat_map.
    exists J. split; [assumption|]. unfold recordsOf. rewrite He. now left.
  - exfalso. rewrite junctionEntry_sides in He.
    unfold isJunctionTable in HJ.
    destruct (junctionSides dmmf J) as [[[A g1] [B g2]]|]; [|discriminate].
    destruct (sideField (scalarFields J) A 0); [|discriminate].
    destruct (sideField (scalarFields J) B 1); discriminate.
Qed.

(** Every record of a normal run comes from a candidate of the graph. *)
Lemma record_origin (dmmf : DMMF) (rs : list ManyToMany) (r : ManyToMany) :
  getManyToManyRelations dmmf = Js.Normal rs -> In r rs ->
  exists J, In J (models (datamodel dmmf))
            /\ junctionEntry dmmf J = Js.Normal (Some r).
Proof.
  unfold getManyToManyRelations. intros Hrun Hin.
  apply forEach_junction in Hrun. destruct Hrun as [-> _]. simpl in Hin.
  apply in_flat_map in Hin. destruct Hin as [J [HJ Hr]].
  exists J. split.
  - unfold junctionModels in HJ. now apply filter_In in HJ.
  - unfold recordsOf in Hr.
    destruct (junctionEntry dmmf J) as [[r'|]|]; simpl in Hr; try contradiction.
    now destruct Hr as [<-|[]].
Qed.

(** ** The relationship map skips junction tables *)

Lemma entries_pushEntry (map : RelMap) (k : string) (x e : Entry) :
  In e (entries (pushEntry map k x)) <-> In e (entries map) \/ e = x.
Proof.
  unfold entries. induction map as [|[k' es] map IH]; simpl.
  - split; [intros [<-|[]]; now right | intros [[]| ->]; now left].
  - destruct (String.eqb k' k); simpl; rewrite !in_app_iff.
    + simpl. intuition congruence.
    + rewrite IH. tauto.
Qed.

Lemma avoids_add (names : list (option string)) (map : RelMap)
  (e1 rel e2 det : string) :
  avoids names map -> has names e1 = false -> has names e2 = false ->
  avoids names (addRelationship map e1 rel e2 det).
Proof.
  intros Hm H1 H2 e He. unfold addRelationship in He.
  apply entries_pushEntry in He. destruct He as [He| ->].
  - now apply Hm.
  - now split.
Qed.

Section MarkdownFacts.

Variable pluralize : string -> string.
Variable names : list (option string).

Lemma avoids_oneToMany (map : RelMap) (rel : OneToMany) :
  avoids names map -> avoids names (processOneToMany pluralize names map rel).
Proof.
  intros Hm. unfold processOneToMany.
  destruct (has names _ || has names _) eqn:E; [assumption|].
  apply orb_false_iff in E. destruct E as [E1 E2].
  repeat apply avoids_add; assumption.
Qed.

Lemma avoids_oneToOne (map : RelMap) (rel : OneToOne) :
  avoids names map -> avoids names (processOneToOne names map rel).
Proof.
  intros Hm. unfold processOneToOne.
  destruct (has names _ || has names _) eqn:E; [assumption|].
  apply orb_false_iff in E. destruct E as [E1 E2].
  repeat apply avoids_add; assumption.
Qed.

Lemma avoids_manyToMany (map : RelMap) (rel : ManyToMany) :
  avoids names map ->
  avoids names (processManyToMany pluralize names map rel).
Proof.
  intros Hm. unfold processManyToMany.
  destruct (has names _ || has names _) eqn:E; [assumption|].
  apply orb_false_iff in E. destruct E as [E1 E2].
  repeat apply avoids_add; assumption.
Qed.

Lemma avoids_fold {A} (step : RelMap -> A -> RelMap) (l : list A) :
  (forall map x, avoids names map -> avoids names (step map x)) ->
  forall map, avoids names map -> avoids names (fold_left step l map).
Proof.
  intros Hstep. induction l as [|x l IH]; intros map Hm; simpl.
  - assumption.
  - apply IH. now apply Hstep.
Qed.

End MarkdownFacts.

Lemma avoids_relationship_map (pluralize : string -> string) (data : Data) :
  avoids (junctionTableNames data)
         (realEntityRelationshipsMap pluralize data).
Proof.
  unfold realEntityRelationshipsMap.
  apply avoids_fold; [apply avoids_manyToMany|].
  apply avoids_fold; [apply avoids_oneToOne|].
  apply avoids_fold; [apply avoids_oneToMany|].
  intros e [].
Qed.

Lemma has_member (names : list (option string)) (x : string) :
  In (Some x) names -> has names x = true.
Proof.
  intros H. unfold has. apply existsb_exists.
  exists (Some x). split; [assumption | apply String.eqb_refl].
Qed.

Lemma skipped_oneToMany (pluralize : string -> string)
  (names : list (option string)) (map : RelMap) (rel : OneToMany)
  (n : string) :
  In (Some n) names -> capitalizeFirstLetter n = n ->
  Ref.name (many rel) = n \/ Ref.name (one rel) = n ->
  processOneToMany pluralize names map rel = map.
Proof.
  intros Hn Hcap Hrel. unfold processOneToMany.
  destruct Hrel as [-> | ->]; rewrite Hcap, (has_member names n Hn);
    now rewrite ?orb_true_r.
Qed.

Lemma skipped_oneToOne (names : list (option string)) (map : RelMap)
  (rel : OneToOne) (n : string) :
  In (Some n) names -> capitalizeFirstLetter n = n ->
  Ref.name (table_one rel) = n \/ Ref.name (table_two rel) = n ->
  processOneToOne names map rel = map.
Proof.
  intros Hn Hcap Hrel. unfold processOneToOne.
  destruct Hrel as [-> | ->]; rewrite Hcap, (has_member names n Hn);
    now rewrite ?orb_true_r.
Qed.

(** C1 (as the code has it).  The classifiers leave junction tables in the
    one-to-many and one-to-one outputs; the exclusion happens when the
    Markdown generator builds its relationship map.  After a run that
    completes, for a junction table whose name starts with an ASCII
    character that [capitalizeFirstLetter] leaves unchanged: every
    one-to-many and every one-to-one record that names it on either side
    is skipped (the map is left as it is), and no entry of the final map
    has that name as [entity1] or [entity2]. *)
Theorem junction_absent_from_relationship_map
  (pluralize : string -> string) (dmmf : DMMF) (rs : list ManyToMany)
  (J : Model.t) :
  getManyToManyRelations dmmf = Js.Normal rs ->
  In J (models (datamodel dmmf)) ->
  isJunctionTable dmmf J = true ->
  asciiInitial (Model.name J) ->
  capitalizeFirstLetter (Model.name J) = Model.name J ->
  (forall rel map,
      Ref.name (many rel) = Model.name J
      \/ Ref.name (one rel) = Model.name J ->
      processOneToMany pluralize (junctionTableNames (classified dmmf rs))
                       map rel = map)
  /\ (forall rel map,
         Ref.name (table_one rel) = Model.name J
         \/ Ref.name (table_two rel) = Model.name J ->
         processOneToOne (junctionTableNames (classified dmmf rs)) map rel
         = map)
  /\ (forall e,
         In e (entries (realEntityRelationshipsMap
                          pluralize (classified dmmf rs))) ->
         entity1 e <> Model.name J /\ entity2 e <> Model.name J).
Proof.
  intros Hrun Hin HJ _ Hcap.
  destruct (junction_recorded dmmf rs J Hrun Hin HJ) as [r [Hr Hentry]].
  apply junctionEntry_name in Hentry.
  assert (Hmem : In (Some (Model.name J))
                    (junctionTableNames (classified dmmf rs))).
  { unfold junctionTableNames. simpl.
    apply in_map_iff. exists r. split; assumption. }
  split; [|split].
  - intros rel map Hrel. now apply (skipped_oneToMany _ _ _ _ (Model.name J)).
  - intros rel map Hrel. now apply (skipped_oneToOne _ _ _ (Model.name J)).
  - intros e He.
    pose proof (has_member _ _ Hmem) as Hn.
    destruct (avoids_relationship_map pluralize (classified dmmf rs) e He)
      as [H1 H2].
    split; intros E; rewrite E in *; congruence.
Qed.

Lemma junction_absent_from_relationship_map_witness :
  processOneToMany
    (fun s => (s ++ "s")%string)
    (junctionTableNames (classified readmeSchema readmeManyToMany))
    []
    {| many := Ref.mk "EmployeeProject" "employee";
       one := Ref.mk "Employee" "employeeProjects" |}
  = []
  /\ forall e,
      In e (entries (realEntityRelationshipsMap
                       (fun s => (s ++ "s")%string)
                       (classified readmeSchema readmeManyToMany))) ->
      entity1 e <> "EmployeeProject"%string
      /\ entity2 e <> "EmployeeProject"%string.
Proof.
  destruct (junction_absent_from_relationship_map
              (fun s => (s ++ "s")%string) readmeSchema readmeManyToMany
              employeeProject)
    as (Hmany & _ & Hmap).
  - reflexivity.
  - simpl. auto 10.
  - reflexivity.
  - vm_compute. lia.
  - reflexivity.
  - split.
    + apply Hmany. left. reflexivity.
    + exact Hmap.
Defined.

(** C1 fails on the classifier outputs: in the README schema the junction
    table [EmployeeProject] is the [many] side of a one-to-many record. *)
Lemma junction_exclusion_counterexample : ~ junctionExclusion readmeSchema.
Proof.
  intros H.
  edestruct (H employeeProject) as [H1 _].
  - simpl. auto 10.
  - vm_compute. reflexivity.
  - simpl. discriminate.
  - destruct (H1 {| many := Ref.mk "EmployeeProject" "employee";
                    one := Ref.mk "Employee" "employeeProjects" |})
      as [_ Hmany].
    + vm_compute. auto.
    + now apply Hmany.
Qed.

(** ** One record per junction table *)

(** Keeping only some models keeps their names pairwise distinct. *)
Lemma distinct_names_filter (keep : Model.t -> bool) (ms : list Model.t) :
  NoDup (map Model.name ms) -> NoDup (map Model.name (filter keep ms)).
Proof.
  induction ms as [|m ms IH]; simpl; [trivial|].
  intros H. inversion H as [|? ? Hnotin Hnd]; subst.
  destruct (keep m); simpl; [|now apply IH].
  constructor; [|now apply IH].
  intros Hin. apply Hnotin. apply in_map_iff in Hin.
  destruct Hin as [x [E Hx]]. apply filter_In in Hx.
  apply in_map_iff. exists x. tauto.
Qed.

Lemma hasJunctionName_recordsOf (dmmf : DMMF) (J : Model.t) (n : string)
  (r : ManyToMany) :
  In r (recordsOf dmmf J) ->
  hasJunctionName n r = String.eqb (Model.name J) n.
Proof.
  intros H. apply recordsOf_name in H. unfold hasJunctionName. now rewrite H.
Qed.

Lemma filter_recordsOf (dmmf : DMMF) (J : Model.t) (n : string) :
  filter (hasJunctionName n) (recordsOf dmmf J) =
  if String.eqb (Model.name J) n then recordsOf dmmf J else [].
Proof.
  pose proof (hasJunctionName_recordsOf dmmf J n) as H.
  induction (recordsOf dmmf J) as [|r l IH]; simpl.
  - now destruct (String.eqb _ _).
  - rewrite (H r) by now left.
    rewrite IH by (intros r' Hr'; apply H; now right).
    now destruct (String.eqb _ _).
Qed.

Lemma filter_records_absent (dmmf : DMMF) (l : list Model.t) (n : string) :
  ~ In n (map Model.name l) ->
  filter (hasJunctionName n) (flat_map (recordsOf dmmf) l) = [].
Proof.
  induction l as [|J l IH]; simpl; [reflexivity|].
  intros H. rewrite filter_app, filter_recordsOf.
  destruct (String.eqb (Model.name J) n) eqn:E.
  - apply String.eqb_eq in E. exfalso. apply H. now left.
  - simpl. apply IH. intros Hin. apply H. now right.
Qed.

Lemma filter_records_unique (dmmf : DMMF) (l : list Model.t) (J : Model.t) :
  NoDup (map Model.name l) -> In J l ->
  filter (hasJunctionName (Model.name J)) (flat_map (recordsOf dmmf) l)
  = recordsOf dmmf J.
Proof.
  induction l as [|J' l IH]; simpl; [contradiction|].
  intros Hnd Hin. inversion Hnd as [|? ? Hnotin Hnd']; subst.
  rewrite filter_app, filter_recordsOf.
  destruct Hin as [->|Hin].
  - rewrite String.eqb_refl, filter_records_absent by assumption.
    apply app_nil_r.
  - destruct (String.eqb (Model.name J') (Model.name J)) eqn:E.
    + apply String.eqb_eq in E. exfalso. apply Hnotin. rewrite E.
      now apply in_map.
    + simpl. now apply IH.
Qed.

Lemma filter_refine {A} (p q : A -> bool) (l : list A) :
  (forall x, p x = true -> q x = true) ->
  filter p l = filter p (filter q l).
Proof.
  intros H. induction l as [|a l IH]; simpl; [reflexivity|].
  destruct (q a) eqn:Eq; simpl.
  - destruct (p a); now rewrite IH.
  - destruct (p a) eqn:Ep; [|assumption].
    apply H in Ep. congruence.
Qed.

(** C2 (as the code has it).  With pairwise distinct entity names, a run
    that completes holds exactly one record per junction table [J]: its
    [relationTable] lists the two sides in the declaration order of the two
    object fields of [J], and when the sides differ no mirrored record
    (B, A, J) exists. *)
Theorem one_record_per_junction
  (dmmf : DMMF) (rs : list ManyToMany) (J A B : Model.t) (g1 g2 : Field.t) :
  NoDup (map Model.name (models (datamodel dmmf))) ->
  getManyToManyRelations dmmf = Js.Normal rs ->
  In J (models (datamodel dmmf)) ->
  junctionSides dmmf J = Some ((A, g1), (B, g2)) ->
  exists r,
    filter (hasJunctionName (Model.name J)) rs = [r]
    /\ relationTable r = (Ref.mk (Model.name A) (Field.name g1),
                          Ref.mk (Model.name B) (Field.name g2))
    /\ junctionName r = Some (Model.name J)
    /\ (Model.name A <> Model.name B ->
        filter (isRecordFor (Model.name B) (Model.name A) (Model.name J)) rs
        = []).
Proof.
  intros Hnd Hrun Hin Hsides.
  assert (HJ : isJunctionTable dmmf J = true)
    by (unfold isJunctionTable; now rewrite Hsides).
  destruct (junction_recorded dmmf rs J Hrun Hin HJ) as [r [_ Hentry]].
  pose proof (junction_is_candidate dmmf J Hin HJ) as Hc.
  unfold getManyToManyRelations in Hrun. apply forEach_junction in Hrun.
  destruct Hrun as [-> _]. simpl.
  assert (Hfilter : filter (hasJunctionName (Model.name J))
                      (flat_map (recordsOf dmmf) (junctionModels dmmf)) = [r]).
  { rewrite filter_records_unique; [| |assumption].
    - unfold recordsOf. now rewrite Hentry.
    - unfold junctionModels. now apply distinct_names_filter. }
  pose proof (junctionEntry_name dmmf J r Hentry) as Hname.
  apply junctionEntry_emits in Hentry.
  destruct Hentry as (A' & g1' & B' & g2' & v1 & v2 & Hs & _ & _ & Hr).
  rewrite Hsides in Hs. injection Hs as <- <- <- <-.
  exists r. repeat split; try assumption.
  - now rewrite Hr.
  - intros Hne.
    rewrite (filter_refine _ (hasJunctionName (Model.name J))).
    2: { intros x Hx. unfold isRecordFor in Hx.
         now apply andb_true_iff in Hx. }
    rewrite Hfilter. simpl. unfold isRecordFor, direction. rewrite Hr. simpl.
    apply String.eqb_neq in Hne. now rewrite Hne.
Qed.

Lemma one_record_per_junction_witness :
  exists r,
    filter (hasJunctionName "EmployeeProject") readmeManyToMany = [r]
    /\ relationTable r = (Ref.mk "Employee" "employeeProjects",
                          Ref.mk "Project" "employeeProjects")
    /\ junctionName r = Some "EmployeeProject"%string
    /\ ("Employee"%string <> "Project"%string ->
        filter (isRecordFor "Project" "Employee" "EmployeeProject")
               readmeManyToMany = []).
Proof.
  apply (one_record_per_junction readmeSchema readmeManyToMany
           employeeProject employee project
           (objectField "employeeProjects" "EmployeeProject" true
                        (Some "EmployeeToEmployeeProject"%string))
           (objectField "employeeProjects" "EmployeeProject" true
                        (Some "EmployeeProjectToProject"%string))).
  - simpl. repeat constructor; simpl; intuition discriminate.
  - reflexivity.
  - simpl. auto 10.
  - reflexivity.
Defined.

(** C2 fails as stated: the README schema yields a single record for
    [EmployeeProject], and none in the direction (Project, Employee). *)
Lemma two_directional_counterexample : ~ twoDirectional readmeSchema.
Proof.
  intros H.
  destruct (H readmeManyToMany eq_refl employeeProject
              employee
              (objectField "employeeProjects" "EmployeeProject" true
                           (Some "EmployeeToEmployeeProject"%string))
              project
              (objectField "employeeProjects" "EmployeeProject" true
                           (Some "EmployeeProjectToProject"%string)))
    as [_ Hmirror].
  - simpl. auto 10.
  - reflexivity.
  - simpl. discriminate.
  - vm_compute in Hmirror. discriminate.
Qed.

(** ** Junction tables short of scalar fields *)

Lemma sideField_fallback (scalars : list Field.t) (related : Model.t)
  (i : nat) :
  (forall f, In f scalars -> nameMentions related f = false) ->
  sideField scalars related i = nameOf (nth_error scalars i).
Proof.
  intros H. unfold sideField.
  apply find_none_iff in H. now rewrite H.
Qed.

(** C3 (what the code does instead of skipping).  A junction table with
    fewer than two scalar fields, none of which mentions the second side,
    makes [getManyToManyRelations] throw a [TypeError]: the junction is not
    skipped and the records of all other junctions are lost with it. *)
Theorem scarce_scalars_throw
  (dmmf : DMMF) (J A B : Model.t) (g1 g2 : Field.t) :
  In J (models (datamodel dmmf)) ->
  junctionSides dmmf J = Some ((A, g1), (B, g2)) ->
  length (scalarFields J) < 2 ->
  (forall f, In f (scalarFields J) -> nameMentions B f = false) ->
  getManyToManyRelations dmmf = Js.Throw Js.TypeError.
Proof.
  intros Hin Hsides Hlen Hnone.
  apply (forEach_junction_throw dmmf _ [] J).
  - apply junction_is_candidate; [assumption|].
    unfold isJunctionTable. now rewrite Hsides.
  - rewrite junctionEntry_sides, Hsides.
    rewrite (sideField_fallback _ B 1 Hnone).
    assert (E : nth_error (scalarFields J) 1 = None)
      by (apply nth_error_None; lia).
    rewrite E. simpl.
    now destruct (sideField (scalarFields J) A 0) as [v|[]].
Qed.

Lemma scarce_scalars_throw_witness :
  getManyToManyRelations implicitSchema = Js.Throw Js.TypeError.
Proof.
  apply (scarce_scalars_throw implicitSchema post tag category
           (objectField "posts" "Post" true (Some "PostToTag"%string))
           (objectField "posts" "Post" true (Some "CategoryToPost"%string))).
  - simpl. auto.
  - reflexivity.
  - simpl. lia.
  - simpl. intros f [<-|[]]. reflexivity.
Defined.

(** ** Accumulating loops *)

Section Folds.

Context {R X : Type}.
Variable step : list R -> X -> list R.

(** The loop body only ever appends. *)
Hypothesis step_keeps : forall acc x r, In r acc -> In r (step acc x).

Lemma fold_keeps (l : list X) (acc : list R) (r : R) :
  In r acc -> In r (fold_left step l acc).
Proof.
  revert acc; induction l as [|x l IH]; intros acc H; simpl.
  - assumption.
  - apply IH. now apply step_keeps.
Qed.

Lemma fold_emits (l : list X) (acc : list R) (x : X) (r : R) :
  In x l -> (forall acc', In r (step acc' x)) ->
  In r (fold_left step l acc).
Proof.
  revert acc; induction l as [|y l IH]; intros acc Hin Hx; simpl.
  - contradiction.
  - destruct Hin as [->|Hin].
    + apply fold_keeps. apply Hx.
    + now apply IH.
Qed.

Lemma fold_emits_some (Q : R -> Prop) (l : list X) (acc : list R)
  (x : X) :
  In x l -> (forall acc', exists r, Q r /\ In r (step acc' x)) ->
  exists r, Q r /\ In r (fold_left step l acc).
Proof.
  revert acc; induction l as [|y l IH]; intros acc Hin Hx; simpl.
  - contradiction.
  - destruct Hin as [->|Hin].
    + destruct (Hx acc) as [r [HQ Hr]]. exists r. split; [assumption|].
      now apply fold_keeps.
    + now apply IH.
Qed.

Lemma fold_origin (P : X -> R -> Prop) (l : list X) (acc : list R) (r : R) :
  (forall acc' x, In r (step acc' x) -> In r acc' \/ P x r) ->
  In r (fold_left step l acc) ->
  In r acc \/ exists x, In x l /\ P x r.
Proof.
  intros Hstep. revert acc; induction l as [|y l IH]; intros acc H; simpl in *.
  - now left.
  - apply IH in H. destruct H as [H|[x [Hx HP]]].
    + apply Hstep in H. destruct H as [H|H]; [now left|].
      right. exists y. split; [now left | assumption].
    + right. exists x. split; [now right | assumption].
Qed.

End Folds.

(** ** The one-to-many classifier *)

Lemma sameOneToMany_eq (a b c d : string) (rel : OneToMany) :
  sameOneToMany a b c d rel = true <->
  rel = {| many := Ref.mk c d; one := Ref.mk a b |}.
Proof.
  unfold sameOneToMany. rewrite !andb_true_iff, !String.eqb_eq.
  destruct rel as [[mn mf] [n1 f1]]; simpl. split.
  - intros [[[-> ->] ->] ->]. reflexivity.
  - intros [= -> -> -> ->]. now repeat split.
Qed.

Lemma findModel_exists (ms : list Model.t) (n : string) (m : Model.t) :
  findModel ms n = Some m ->
  existsb (fun x => String.eqb (Model.name x) n) ms = true.
Proof.
  intros H. apply find_some in H. apply existsb_exists. now exists m.
Qed.

Lemma isObject_kind (f : Field.t) :
  isObject f = true <-> Field.kind f = object.
Proof.
  unfold isObject. destruct (Field.kind f); simpl; split; congruence.
Qed.

Lemma oneToManyField_keeps (ms : list Model.t) (model : Model.t)
  (acc : list OneToMany) (field : Field.t) (r : OneToMany) :
  In r acc -> In r (oneToManyField ms model acc field).
Proof.
  intros H. unfold oneToManyField.
  destruct (isObject field && Field.isList field && existsb _ ms);
    [|assumption].
  destruct (findModel ms (Field.type field)) as [R|]; [|assumption].
  destruct (reciprocalField R model field) as [g|]; [|assumption].
  destruct (negb _); [|assumption].
  apply in_or_app. now left.
Qed.

Lemma oneToManyField_emits (ms : list Model.t) (model : Model.t)
  (acc : list OneToMany) (field : Field.t) (R : Model.t) (g : Field.t) :
  Field.kind field = object -> Field.isList field = true ->
  findModel ms (Field.type field) = Some R ->
  reciprocalField R model field = Some g ->
  In (oneToManyRecord model field R g) (oneToManyField ms model acc field).
Proof.
  intros Hk Hl HR Hg. unfold oneToManyField.
  apply isObject_kind in Hk.
  rewrite Hk, Hl, (findModel_exists ms _ R HR), HR, Hg. simpl.
  destruct (existsb _ acc) eqn:E; simpl.
  - apply existsb_exists in E. destruct E as [rel [Hin Hsame]].
    apply sameOneToMany_eq in Hsame. now subst rel.
  - apply in_or_app. right. now left.
Qed.

Lemma oneToManyField_origin (ms : list Model.t) (model : Model.t)
  (acc : list OneToMany) (field : Field.t) (r : OneToMany) :
  In r (oneToManyField ms model acc field) ->
  In r acc
  \/ (Field.kind field = object /\ Field.isList field = true
      /\ exists R g, findModel ms (Field.type field) = Some R
                     /\ reciprocalField R model field = Some g
                     /\ r = oneToManyRecord model field R g).
Proof.
  unfold oneToManyField.
  destruct (isObject field) eqn:Hk; simpl; [|now left].
  destruct (Field.isList field) eqn:Hl; simpl; [|now left].
  destruct (existsb _ ms); [|now left].
  destruct (findModel ms (Field.type field)) as [R|] eqn:HR; [|now left].
  destruct (reciprocalField R model field) as [g|] eqn:Hg; [|now left].
  destruct (negb _); [|now left].
  intros H. apply in_app_or in H. destruct H as [H|[<-|[]]]; [now left|].
  right. apply isObject_kind in Hk. repeat split; try assumption.
  now exists R, g.
Qed.

Lemma oneToManyModel_keeps (ms : list Model.t) (acc : list OneToMany)
  (model : Model.t) (r : OneToMany) :
  In r acc -> In r (oneToManyModel ms acc model).
Proof. apply fold_keeps. intros; now apply oneToManyField_keeps. Qed.

(** Completeness: every list field with a singular reciprocal is recorded,
    the origin on the [one] side. *)
Lemma oneToMany_complete (dmmf : DMMF) (model : Model.t) (field : Field.t)
  (R : Model.t) (g : Field.t) :
  listRelation dmmf model field R g ->
  In (oneToManyRecord model field R g)
     (manyToOne (getOneToManyRelations dmmf)).
Proof.
  intros (HM & Hf & Hk & Hl & HR & Hg). simpl.
  apply fold_emits with (x := model); [| assumption |].
  - intros; now apply oneToManyModel_keeps.
  - intros acc. unfold oneToManyModel.
    apply fold_emits with (x := field); [| assumption |].
    + intros; now apply oneToManyField_keeps.
    + intros acc'. now apply oneToManyField_emits.
Qed.

(** Soundness: every record stems from such a field. *)
Lemma oneToMany_sound (dmmf : DMMF) (r : OneToMany) :
  In r (manyToOne (getOneToManyRelations dmmf)) ->
  exists model field R g,
    listRelation dmmf model field R g /\ r = oneToManyRecord model field R g.
Proof.
  simpl. intros H.
  apply (fold_origin _ (fun model r =>
           exists field R g,
             In field (Model.fields model)
             /\ Field.kind field = object /\ Field.isList field = true
             /\ findModel (models (datamodel dmmf)) (Field.type field) = Some R
             /\ reciprocalField R model field = Some g
             /\ r = oneToManyRecord model field R g)) in H.
  - destruct H
      as [[]|[model [HM (field & R & g & Hf & Hk & Hl & HR & Hg & E)]]].
    exists model, field, R, g. split; [|assumption].
    unfold listRelation. tauto.
  - intros acc model Hin. unfold oneToManyModel in Hin.
    apply (fold_origin _ (fun field r =>
             Field.kind field = object /\ Field.isList field = true
             /\ exists R g,
                 findModel (models (datamodel dmmf)) (Field.type field)
                 = Some R
                 /\ reciprocalField R model field = Some g
                 /\ r = oneToManyRecord model field R g)) in Hin.
    + destruct Hin as [Hin|[field [Hf (Hk & Hl & R & g & HR & Hg & E)]]];
        [now left|].
      right. exists field, R, g. tauto.
    + intros acc' field. apply oneToManyField_origin.
Qed.

(** C4 (as the code has it).  For a list-typed object field of the origin
    entity with a singular reciprocal in the related entity, the record
    names the origin entity and its list field as [one], and the related
    entity and the reciprocal field as [many]. *)
Theorem origin_is_one (dmmf : DMMF) (model : Model.t) (field : Field.t)
  (relatedModel : Model.t) (reciprocal : Field.t) :
  listRelation dmmf model field relatedModel reciprocal ->
  In {| many := Ref.mk (Model.name relatedModel) (Field.name reciprocal);
        one := Ref.mk (Model.name model) (Field.name field) |}
     (manyToOne (getOneToManyRelations dmmf)).
Proof. apply oneToMany_complete. Qed.

Lemma scenarioA_listRelation (rel : option string) :
  listRelation (scenarioA rel) (departmentA rel) (employeesOf rel)
               (employeeA rel) (departmentOf rel).
Proof.
  unfold listRelation. simpl.
  repeat split; auto.
  unfold reciprocalField. simpl.
  destruct rel as [n|]; simpl; [now rewrite String.eqb_refl | reflexivity].
Qed.

Lemma origin_is_one_witness :
  In {| many := Ref.mk "Employee" "department";
        one := Ref.mk "Department" "employees" |}
     (manyToOne (getOneToManyRelations (scenarioA None))).
Proof.
  apply (origin_is_one (scenarioA None) (departmentA None) (employeesOf None)
                       (employeeA None) (departmentOf None)).
  unfold listRelation. simpl. repeat split; auto.
Defined.

(** C4 fails as stated: in Scenario A the origin of the list field is
    [Department], and no record has [Employee] as its [one] side. *)
Lemma related_is_one_counterexample : ~ relatedIsOne (scenarioA None).
Proof.
  intros H.
  specialize (H _ _ _ _ (scenarioA_listRelation None)).
  vm_compute in H. destruct H as [H|[]]. discriminate.
Qed.

(** C5.  Scenario A yields exactly one one-to-many record, with
    [Employee.department] as [many] and [Department.employees] as [one],
    whatever the shared relation name is. *)
Theorem scenarioA_oneToMany (rel : option string) :
  manyToOne (getOneToManyRelations (scenarioA rel)) =
  [ {| many := Ref.mk "Employee" "department";
       one := Ref.mk "Department" "employees" |} ].
Proof.
  unfold getOneToManyRelations, scenarioA, graph.
  cbn [models datamodel manyToOne].
  unfold oneToManyModel, oneToManyField, reciprocalField. simpl.
  destruct rel as [n|]; simpl; [now rewrite String.eqb_refl | reflexivity].
Qed.

(** ** The one-to-one classifier *)

Lemma fold_invariant {R X} (Inv : list R -> Prop)
  (step : list R -> X -> list R) (l : list X) :
  (forall acc x, Inv acc -> Inv (step acc x)) ->
  forall acc, Inv acc -> Inv (fold_left step l acc).
Proof.
  intros Hstep. induction l as [|x l IH]; intros acc H; simpl.
  - assumption.
  - apply IH. now apply Hstep.
Qed.

Lemma sameOneToOne_eq (n1 f1 n2 f2 : string) (rel : OneToOne) :
  sameOneToOne n1 f1 n2 f2 rel = true <->
  rel = {| table_one := Ref.mk n1 f1; table_two := Ref.mk n2 f2 |}.
Proof.
  unfold sameOneToOne. rewrite !andb_true_iff, !String.eqb_eq.
  destruct rel as [[a b] [c d]]; simpl. split.
  - intros [[[-> ->] ->] ->]. reflexivity.
  - intros [= -> -> -> ->]. now repeat split.
Qed.

Lemma swap_involutive (r : OneToOne) : swap (swap r) = r.
Proof. now destruct r. Qed.

Lemma collapsed_snoc (l : list OneToOne) (r : OneToOne) :
  collapsed l ->
  (forall a, In a l -> r <> a /\ r <> swap a) ->
  collapsed (l ++ [r]).
Proof.
  intros Hl Hr i j a b Hij Hi Hj.
  destruct (Nat.lt_ge_cases j (length l)) as [Hj'|Hj'].
  - rewrite nth_error_app1 in Hi by lia.
    rewrite nth_error_app1 in Hj by lia.
    now apply (Hl i j).
  - rewrite nth_error_app2 in Hj by assumption.
    destruct (j - length l) as [|k] eqn:E; simpl in Hj.
    + injection Hj as <-.
      rewrite nth_error_app1 in Hi by lia.
      apply Hr. now apply nth_error_In in Hi.
    + now destruct k.
Qed.

Lemma oneToOneField_collapsed (ms : list Model.t) (model : Model.t)
  (acc : list OneToOne) (field : Field.t) :
  collapsed acc -> collapsed (oneToOneField ms model acc field).
Proof.
  intros Hacc. unfold oneToOneField.
  destruct (isObject field && negb (Field.isList field)); [|assumption].
  destruct (findModel ms (Field.type field)) as [R|]; [|assumption].
  destruct (reciprocalField R model field) as [g|]; [|assumption].
  destruct (existsb _ acc) eqn:E; simpl; [assumption|].
  apply collapsed_snoc; [assumption|].
  intros a Ha.
  assert (Hno : sameOneToOne (Model.name model) (Field.name field)
                             (Field.type field) (Field.name g) a
                || sameOneToOne (Field.type field) (Field.name g)
                                (Model.name model) (Field.name field) a
                = false).
  { destruct (_ || _) eqn:E'; [|reflexivity].
    assert (existsb
              (fun rel =>
                 sameOneToOne (Model.name model) (Field.name field)
                              (Field.type field) (Field.name g) rel
                 || sameOneToOne (Field.type field) (Field.name g)
                                 (Model.name model) (Field.name field) rel)
              acc = true)
      by (apply existsb_exists; now exists a).
    congruence. }
  apply orb_false_iff in Hno. destruct Hno as [H1 H2].
  split; intros Heq.
  - subst a. assert (sameOneToOne (Model.name model) (Field.name field)
                       (Field.type field) (Field.name g)
                       {| table_one := Ref.mk (Model.name model)
                                              (Field.name field);
                          table_two := Ref.mk (Field.type field)
                                              (Field.name g) |} = true)
      by now apply sameOneToOne_eq.
    congruence.
  - assert (Ha' : a = {| table_one := Ref.mk (Field.type field)
                                             (Field.name g);
                         table_two := Ref.mk (Model.name model)
                                             (Field.name field) |}).
    { rewrite <- (swap_involutive a), <- Heq. reflexivity. }
    apply sameOneToOne_eq in Ha'. congruence.
Qed.

Lemma getOneToOneRelations_collapsed (dmmf : DMMF) :
  collapsed (getOneToOneRelations dmmf).
Proof.
  unfold getOneToOneRelations.
  apply fold_invariant.
  - intros acc model. unfold oneToOneModel. apply fold_invariant.
    intros acc' field. apply oneToOneField_collapsed.
  - intros i j a b _ Hi. now destruct i.
Qed.

(** C6.  The one-to-one output never holds, at two different positions,
    two records that are equal or that are equal after exchanging
    [table_one] and [table_two]. *)
Theorem oneToOne_no_mirror (dmmf : DMMF) (i j : nat) (a b : OneToOne) :
  i <> j ->
  nth_error (getOneToOneRelations dmmf) i = Some a ->
  nth_error (getOneToOneRelations dmmf) j = Some b ->
  b <> a /\ b <> swap a.
Proof.
  intros Hij Hi Hj.
  pose proof (getOneToOneRelations_collapsed dmmf) as Hc.
  destruct (Nat.lt_trichotomy i j) as [Hlt|[Heq|Hgt]].
  - now apply (Hc i j).
  - contradiction.
  - destruct (Hc j i b a Hgt Hj Hi) as [H1 H2]. split.
    + congruence.
    + intros E. apply H2. rewrite E. symmetry. apply swap_involutive.
Qed.

Lemma oneToOne_no_mirror_witness :
  {| table_one := Ref.mk "Person" "licence";
     table_two := Ref.mk "Licence" "owner" |}
  <> {| table_one := Ref.mk "Person" "passport";
        table_two := Ref.mk "Passport" "owner" |}
  /\ {| table_one := Ref.mk "Person" "licence";
        table_two := Ref.mk "Licence" "owner" |}
     <> swap {| table_one := Ref.mk "Person" "passport";
                table_two := Ref.mk "Passport" "owner" |}.
Proof.
  apply (oneToOne_no_mirror documentsSchema 0 1).
  - lia.
  - reflexivity.
  - reflexivity.
Defined.

Lemma oneToOneField_keeps (ms : list Model.t) (model : Model.t)
  (acc : list OneToOne) (field : Field.t) (r : OneToOne) :
  In r acc -> In r (oneToOneField ms model acc field).
Proof.
  intros H. unfold oneToOneField.
  destruct (isObject field && negb (Field.isList field)); [|assumption].
  destruct (findModel ms (Field.type field)) as [R|]; [|assumption].
  destruct (reciprocalField R model field) as [g|]; [|assumption].
  destruct (negb _); [|assumption].
  apply in_or_app. now left.
Qed.

Lemma oneToOneField_emits (ms : list Model.t) (model : Model.t)
  (acc : list OneToOne) (field : Field.t) (R : Model.t) (g : Field.t) :
  Field.kind field = object -> Field.isList field = false ->
  findModel ms (Field.type field) = Some R ->
  reciprocalField R model field = Some g ->
  exists r,
    (r = oneToOneRecord model field g
     \/ r = swap (oneToOneRecord model field g))
    /\ In r (oneToOneField ms model acc field).
Proof.
  intros Hk Hl HR Hg. unfold oneToOneField.
  apply isObject_kind in Hk. rewrite Hk, Hl, HR, Hg. simpl.
  destruct (existsb _ acc) eqn:E; simpl.
  - apply existsb_exists in E. destruct E as [rel [Hin Hsame]].
    exists rel. split; [|assumption].
    apply orb_true_iff in Hsame.
    destruct Hsame as [H|H]; apply sameOneToOne_eq in H; [now left | now right].
  - exists (oneToOneRecord model field g). split; [now left|].
    apply in_or_app. right. now left.
Qed.

Lemma oneToOneField_origin (ms : list Model.t) (model : Model.t)
  (acc : list OneToOne) (field : Field.t) (r : OneToOne) :
  In r (oneToOneField ms model acc field) ->
  In r acc
  \/ (Field.kind field = object /\ Field.isList field = false
      /\ exists R g, findModel ms (Field.type field) = Some R
                     /\ reciprocalField R model field = Some g
                     /\ r = oneToOneRecord model field g).
Proof.
  unfold oneToOneField.
  destruct (isObject field) eqn:Hk; simpl; [|now left].
  destruct (Field.isList field) eqn:Hl; simpl; [now left|].
  destruct (findModel ms (Field.type field)) as [R|] eqn:HR; [|now left].
  destruct (reciprocalField R model field) as [g|] eqn:Hg; [|now left].
  destruct (negb _); [|now left].
  intros H. apply in_app_or in H. destruct H as [H|[<-|[]]]; [now left|].
  right. apply isObject_kind in Hk. repeat split; try assumption.
  now exists R, g.
Qed.

Lemma oneToOneModel_keeps (ms : list Model.t) (acc : list OneToOne)
  (model : Model.t) (r : OneToOne) :
  In r acc -> In r (oneToOneModel ms acc model).
Proof. apply fold_keeps. intros; now apply oneToOneField_keeps. Qed.

(** Completeness: every singular field with a singular reciprocal is
    recorded, from one side or the other. *)
Lemma oneToOne_complete (dmmf : DMMF) (model : Model.t) (field : Field.t)
  (R : Model.t) (g : Field.t) :
  singularRelation dmmf model field R g ->
  In (oneToOneRecord model field g) (getOneToOneRelations dmmf)
  \/ In (swap (oneToOneRecord model field g)) (getOneToOneRelations dmmf).
Proof.
  intros (HM & Hf & Hk & Hl & HR & Hg).
  assert (H : exists r,
             (r = oneToOneRecord model field g
              \/ r = swap (oneToOneRecord model field g))
             /\ In r (getOneToOneRelations dmmf)).
  { unfold getOneToOneRelations.
    apply fold_emits_some with (x := model); [| assumption |].
    - intros; now apply oneToOneModel_keeps.
    - intros acc. unfold oneToOneModel.
      apply fold_emits_some with (x := field); [| assumption |].
      + intros; now apply oneToOneField_keeps.
      + intros acc'. now apply oneToOneField_emits with (R := R). }
  destruct H as [r [[->| ->] Hr]]; [now left | now right].
Qed.

(** Soundness: every record stems from such a field. *)
Lemma oneToOne_sound (dmmf : DMMF) (r : OneToOne) :
  In r (getOneToOneRelations dmmf) ->
  exists model field R g,
    singularRelation dmmf model field R g /\ r = oneToOneRecord model field g.
Proof.
  unfold getOneToOneRelations. intros H.
  apply (fold_origin _ (fun model r =>
           exists field R g,
             In field (Model.fields model)
             /\ Field.kind field = object /\ Field.isList field = false
             /\ findModel (models (datamodel dmmf)) (Field.type field) = Some R
             /\ reciprocalField R model field = Some g
             /\ r = oneToOneRecord model field g)) in H.
  - destruct H
      as [[]|[model [HM (field & R & g & Hf & Hk & Hl & HR & Hg & E)]]].
    exists model, field, R, g. split; [|assumption].
    unfold singularRelation. tauto.
  - intros acc model Hin. unfold oneToOneModel in Hin.
    apply (fold_origin _ (fun field r =>
             Field.kind field = object /\ Field.isList field = false
             /\ exists R g,
                 findModel (models (datamodel dmmf)) (Field.type field)
                 = Some R
                 /\ reciprocalField R model field = Some g
                 /\ r = oneToOneRecord model field g)) in Hin.
    + destruct Hin as [Hin|[field [Hf (Hk & Hl & R & g & HR & Hg & E)]]];
        [now left|].
      right. exists field, R, g. tauto.
    + intros acc' field. apply oneToOneField_origin.
Qed.

(** ** Candidates that are dropped *)

Lemma relationName_eqb_sym (a b : option string) :
  relationName_eqb a b = relationName_eqb b a.
Proof. destruct a, b; simpl; auto using String.eqb_sym. Qed.

Lemma objectFields_In (m : Model.t) (f : Field.t) :
  In f (objectFields m) <-> In f (Model.fields m) /\ Field.kind f = object.
Proof. unfold objectFields. now rewrite filter_In, isObject_kind. Qed.

(** An object field without a resolvable list-typed reciprocal keeps its
    model out of the junction tables. *)
Lemma unpaired_no_sides (dmmf : DMMF) (m : Model.t) (f : Field.t) :
  In f (objectFields m) ->
  unpaired dmmf f (fun R => reciprocalListField R m) ->
  junctionSides dmmf m = None.
Proof.
  unfold junctionSides, unpaired. intros Hin Hun.
  destruct (objectFields m) as [|f1 [|f2 [|f3 l]]]; try reflexivity.
  destruct (findModel _ (Field.type f1)) as [A|] eqn:EA; [|reflexivity].
  destruct (findModel _ (Field.type f2)) as [B|] eqn:EB; [|reflexivity].
  destruct (reciprocalListField A m) as [g1|] eqn:E1; [|reflexivity].
  destruct (reciprocalListField B m) as [g2|] eqn:E2; [|reflexivity].
  exfalso. destruct Hin as [<-|[<-|[]]];
    destruct Hun as [Hun|[R [HR Hun]]]; congruence.
Qed.

Lemma no_sides_no_entry (dmmf : DMMF) (m : Model.t) :
  junctionSides dmmf m = None -> junctionEntry dmmf m = Js.Normal None.
Proof. intros H. now rewrite junctionEntry_sides, H. Qed.

Lemma no_sides_no_record (dmmf : DMMF) (m : Model.t)
  (rs : list ManyToMany) (r : ManyToMany) :
  NoDup (map Model.name (models (datamodel dmmf))) ->
  In m (models (datamodel dmmf)) ->
  junctionSides dmmf m = None ->
  getManyToManyRelations dmmf = Js.Normal rs -> In r rs ->
  junctionName r <> Some (Model.name m).
Proof.
  intros Hnd Hin Hsides Hrun Hr Hname.
  destruct (record_origin dmmf rs r Hrun Hr) as [J [HJ Hentry]].
  pose proof (junctionEntry_name dmmf J r Hentry) as HnameJ.
  rewrite Hname in HnameJ. injection HnameJ as E.
  assert (J = m) by (apply (by_key Model.name _ J m Hnd); auto).
  subst J. rewrite (no_sides_no_entry dmmf m Hsides) in Hentry.
  discriminate.
Qed.

Lemma relationName_eqb_eq (a b : option string) :
  relationName_eqb a b = true <-> a = b.
Proof.
  destruct a as [x|], b as [y|]; simpl; try (split; congruence).
  rewrite String.eqb_eq. split; congruence.
Qed.

Lemma reciprocalField_some (R M : Model.t) (f g : Field.t) :
  reciprocalField R M f = Some g ->
  In g (Model.fields R) /\ Field.kind g = object
  /\ Field.isList g = false /\ Field.type g = Model.name M
  /\ Field.relationName g = Field.relationName f.
Proof.
  unfold reciprocalField. intros H. apply find_some in H.
  destruct H as [Hin Hp].
  apply andb_true_iff in Hp. destruct Hp as [Hp Hrel].
  apply andb_true_iff in Hp. destruct Hp as [Hp Ht].
  apply andb_true_iff in Hp. destruct Hp as [Hk Hl].
  apply isObject_kind in Hk. apply String.eqb_eq in Ht.
  apply relationName_eqb_eq in Hrel. apply negb_true_iff in Hl. tauto.
Qed.

(** A reverse side that exists is found: the search of the classifiers
    returns a field that reciprocates. *)
Lemma reciprocalField_found (R E : Model.t) (f g : Field.t) :
  reciprocates R E f g ->
  exists g', reciprocalField R E f = Some g' /\ reciprocates R E f g'.
Proof.
  intros (Hin & Hk & Hl & Ht & Hrel).
  destruct (reciprocalField R E f) as [g'|] eqn:Eg.
  - exists g'. split; [reflexivity|].
    apply reciprocalField_some in Eg. exact Eg.
  - exfalso. unfold reciprocalField in Eg.
    apply find_none with (x := g) in Eg; [|assumption].
    apply isObject_kind in Hk.
    rewrite Hk, Hl, Ht, String.eqb_refl, Hrel in Eg. simpl in Eg.
    assert (relationName_eqb (Field.relationName f) (Field.relationName f)
            = true) by now apply relationName_eqb_eq.
    congruence.
Qed.

(** C7.  An entity [E] with exactly two object fields, one of which has no
    list-typed reciprocal in the entity it references, is skipped by the
    many-to-many classifier (no record carries its name), and its fields
    go through the ordinary classification: a list-typed object field of
    [E] whose related entity holds a reverse side is in the one-to-many
    output with [E] as [one], and a singular object field of [E] whose
    related entity holds a reverse side is in the one-to-one output, from
    one side or the other. *)
Theorem incomplete_junction_falls_through
  (dmmf : DMMF) (E : Model.t) (f1 f2 : Field.t) :
  NoDup (map Model.name (models (datamodel dmmf))) ->
  In E (models (datamodel dmmf)) ->
  objectFields E = [f1; f2] ->
  unpaired dmmf f1 (fun R => reciprocalListField R E)
  \/ unpaired dmmf f2 (fun R => reciprocalListField R E) ->
  junctionEntry dmmf E = Js.Normal None
  /\ (forall rs r, getManyToManyRelations dmmf = Js.Normal rs -> In r rs ->
                   junctionName r <> Some (Model.name E))
  /\ (forall f R g,
         In f (Model.fields E) -> Field.kind f = object ->
         Field.isList f = true ->
         In R (models (datamodel dmmf)) -> Model.name R = Field.type f ->
         reciprocates R E f g ->
         exists g',
           reciprocates R E f g'
           /\ In {| many := Ref.mk (Model.name R) (Field.name g');
                    one := Ref.mk (Model.name E) (Field.name f) |}
                 (manyToOne (getOneToManyRelations dmmf)))
  /\ (forall f R g,
         In f (Model.fields E) -> Field.kind f = object ->
         Field.isList f = false ->
         In R (models (datamodel dmmf)) -> Model.name R = Field.type f ->
         reciprocates R E f g ->
         exists g',
           reciprocates R E f g'
           /\ (In {| table_one := Ref.mk (Model.name E) (Field.name f);
                     table_two := Ref.mk (Model.name R) (Field.name g') |}
                  (getOneToOneRelations dmmf)
               \/ In {| table_one := Ref.mk (Model.name R) (Field.name g');
                        table_two := Ref.mk (Model.name E) (Field.name f) |}
                     (getOneToOneRelations dmmf))).
Proof.
  intros Hnd Hin Hobj Hun.
  assert (Hsides : junctionSides dmmf E = None).
  { destruct Hun as [Hun|Hun];
      [apply (unpaired_no_sides dmmf E f1)
      | apply (unpaired_no_sides dmmf E f2)];
      try assumption; rewrite Hobj; simpl; auto. }
  split; [now apply no_sides_no_entry|].
  split; [intros rs r; now apply no_sides_no_record|].
  split.
  - intros f R g Hf Hk Hl HR Hname Hg.
    destruct (reciprocalField_found R E f g Hg) as [g' [Hfound Hg']].
    exists g'. split; [assumption|].
    apply (oneToMany_complete dmmf E f R g').
    unfold listRelation. repeat split; try assumption.
    rewrite <- Hname. now apply findModel_unique.
  - intros f R g Hf Hk Hl HR Hname Hg.
    destruct (reciprocalField_found R E f g Hg) as [g' [Hfound Hg']].
    exists g'. split; [assumption|].
    assert (Hrel : singularRelation dmmf E f R g').
    { unfold singularRelation. repeat split; try assumption.
      rewrite <- Hname. now apply findModel_unique. }
    destruct (oneToOne_complete dmmf E f R g' Hrel) as [H|H];
      unfold oneToOneRecord, swap in H; cbn [table_one table_two] in H;
      rewrite <- Hname in H; [now left | now right].
Qed.

Lemma incomplete_junction_falls_through_witness :
  junctionEntry teamSchema team = Js.Normal None
  /\ In {| many := Ref.mk "Member" "team";
           one := Ref.mk "Team" "members" |}
        (manyToOne (getOneToManyRelations teamSchema))
  /\ (In {| table_one := Ref.mk "Team" "lead";
            table_two := Ref.mk "Lead" "team" |}
         (getOneToOneRelations teamSchema)
      \/ In {| table_one := Ref.mk "Lead" "team";
               table_two := Ref.mk "Team" "lead" |}
            (getOneToOneRelations teamSchema)).
Proof.
  destruct (incomplete_junction_falls_through teamSchema team
              membersOfTeam leadOfTeam)
    as (Hskip & _ & Hmany & Hone).
  - simpl. repeat constructor; simpl; intuition discriminate.
  - simpl. auto.
  - reflexivity.
  - left. right. exists member. split; reflexivity.
  - split; [exact Hskip|]. split.
    + destruct (Hmany membersOfTeam member teamOfMember)
        as [g' [(Hin & Hk & _) Hrec]];
        [simpl; auto | reflexivity | reflexivity | simpl; auto | reflexivity
        | unfold reciprocates; simpl; auto 10 |].
      simpl in Hin. destruct Hin as [<-|[<-|[]]]; [discriminate|].
      exact Hrec.
    + destruct (Hone leadOfTeam lead teamOfLead)
        as [g' [(Hin & Hk & _) Hrec]];
        [simpl; auto | reflexivity | reflexivity | simpl; auto | reflexivity
        | unfold reciprocates; simpl; auto 10 |].
      simpl in Hin. destruct Hin as [<-|[<-|[]]]; [discriminate|].
      exact Hrec.
Defined.

(** C9.  With pairwise distinct entity names and field names, an object
    field whose type names no entity, or whose related entity has no
    reciprocal field of the required shape, leaves no trace: no one-to-many
    record has it as [one], no one-to-one record has it on either side, and
    a junction candidate owning it is skipped without a record.  The
    one-to-many and one-to-one classifiers are total functions, and the
    many-to-many callback returns normally for that candidate. *)
Theorem unpaired_fields_dropped (dmmf : DMMF) (M : Model.t) (f : Field.t) :
  NoDup (map Model.name (models (datamodel dmmf))) ->
  NoDup (map Field.name (Model.fields M)) ->
  In M (models (datamodel dmmf)) ->
  In f (Model.fields M) ->
  Field.kind f = object ->
  (unpaired dmmf f (fun R => reciprocalField R M f) ->
   (forall r, In r (manyToOne (getOneToManyRelations dmmf)) ->
              one r <> Ref.mk (Model.name M) (Field.name f))
   /\ (forall r, In r (getOneToOneRelations dmmf) ->
                 table_one r <> Ref.mk (Model.name M) (Field.name f)
                 /\ table_two r <> Ref.mk (Model.name M) (Field.name f)))
  /\ (unpaired dmmf f (fun R => reciprocalListField R M) ->
      junctionEntry dmmf M = Js.Normal None
      /\ forall rs r, getManyToManyRelations dmmf = Js.Normal rs -> In r rs ->
                      junctionName r <> Some (Model.name M)).
Proof.
  intros Hnd Hfd HM Hf Hk. split.
  - intros Hun.
    assert (Hpaired : forall R g,
               findModel (models (datamodel dmmf)) (Field.type f) = Some R ->
               reciprocalField R M f = Some g -> False).
    { intros R g HR Hg. destruct Hun as [Hun|[R' [HR' Hun]]]; congruence. }
    split; [|split].
    + intros r Hr Hone. apply oneToMany_sound in Hr.
      destruct Hr as (M' & f' & R & g & (HM' & Hf' & _ & _ & HR & Hg) & ->).
      simpl in Hone. injection Hone as EM Ef.
      assert (M' = M) by (apply (by_key Model.name _ M' M Hnd); auto).
      subst M'.
      assert (f' = f) by (apply (by_key Field.name _ f' f Hfd); auto).
      subst f'. exact (Hpaired R g HR Hg).
    + intros Hone. apply oneToOne_sound in H.
      destruct H as (M' & f' & R & g & (HM' & Hf' & _ & _ & HR & Hg) & ->).
      simpl in Hone. injection Hone as EM Ef.
      assert (M' = M) by (apply (by_key Model.name _ M' M Hnd); auto).
      subst M'.
      assert (f' = f) by (apply (by_key Field.name _ f' f Hfd); auto).
      subst f'. exact (Hpaired R g HR Hg).
    + intros Htwo. apply oneToOne_sound in H.
      destruct H as (M' & f' & R & g & (HM' & Hf' & Hk' & Hl' & HR & Hg) & ->).
      simpl in Htwo. injection Htwo as ER Eg.
      destruct (findModel_some _ _ _ HR) as [HRin HRname].
      assert (R = M)
        by (apply (by_key Model.name _ R M Hnd); auto; congruence).
      subst R.
      unfold reciprocalField in Hg. apply find_some in Hg.
      destruct Hg as [Hgin Hgp].
      assert (g = f) by (apply (by_key Field.name _ g f Hfd); auto).
      subst g.
      apply andb_true_iff in Hgp. destruct Hgp as [Hgp Hrel].
      apply andb_true_iff in Hgp. destruct Hgp as [Hgp Htype].
      apply String.eqb_eq in Htype.
      assert (HfM' : findModel (models (datamodel dmmf)) (Field.type f)
                     = Some M')
        by (rewrite Htype; now apply findModel_unique).
      destruct (reciprocalField M' M f) as [g'|] eqn:Hg'.
      * exact (Hpaired M' g' HfM' Hg').
      * unfold reciprocalField in Hg'.
        apply find_none with (x := f') in Hg'; [|assumption].
        apply isObject_kind in Hk'.
        rewrite Hk', Hl', ER, String.eqb_refl, relationName_eqb_sym, Hrel
          in Hg'.
        discriminate.
  - intros Hun.
    assert (Hsides : junctionSides dmmf M = None).
    { apply (unpaired_no_sides dmmf M f); [|assumption].
      now apply objectFields_In. }
    split; [now apply no_sides_no_entry|].
    intros rs r. now apply no_sides_no_record.
Qed.

Lemma unpaired_fields_dropped_witness :
  ((forall r, In r (manyToOne (getOneToManyRelations invoiceSchema)) ->
              one r <> Ref.mk "Invoice" "customer")
   /\ (forall r, In r (getOneToOneRelations invoiceSchema) ->
                 table_one r <> Ref.mk "Invoice" "customer"
                 /\ table_two r <> Ref.mk "Invoice" "customer"))
  /\ (junctionEntry invoiceSchema invoice = Js.Normal None
      /\ forall rs r,
          getManyToManyRelations invoiceSchema = Js.Normal rs -> In r rs ->
          junctionName r <> Some "Invoice"%string).
Proof.
  destruct (unpaired_fields_dropped invoiceSchema invoice
              (objectField "customer" "Customer" false
                           (Some "CustomerToInvoice"%string)))
    as [H1 H2].
  - simpl. repeat constructor; simpl; intuition discriminate.
  - simpl. repeat constructor; simpl; intuition discriminate.
  - simpl. auto.
  - simpl. auto.
  - reflexivity.
  - split.
    + apply H1. right. exists customer. split; reflexivity.
    + apply H2. right. exists customer. split; reflexivity.
Defined.

(** ** The scalar field reported for each side *)





(** *** Case folding and the independent reading of the choice *)















(** ** A junction whose two sides are the same entity *)

(** C10.  When both object fields of a two-object-field entity reference
    the same entity [E], which has a list-typed reciprocal [g], the record
    lists [E] with [g] on both sides of [relationTable], and the junction
    object has exactly the keys [name] and [<E>Field]; the latter holds the
    scalar field chosen for side B, the value written for side A being
    overwritten. *)
Theorem same_entity_junction
  (dmmf : DMMF) (J E : Model.t) (f1 f2 g : Field.t) (r : ManyToMany) :
  objectFields J = [f1; f2] ->
  Field.type f1 = Field.type f2 ->
  findModel (models (datamodel dmmf)) (Field.type f1) = Some E ->
  reciprocalListField E J = Some g ->
  junctionEntry dmmf J = Js.Normal (Some r) ->
  relationTable r = (Ref.mk (Model.name E) (Field.name g),
                     Ref.mk (Model.name E) (Field.name g))
  /\ exists vA vB,
      sideField (scalarFields J) E 0 = Js.Normal vA
      /\ sideField (scalarFields J) E 1 = Js.Normal vB
      /\ junctionTable r =
         [ ("name"%string, Model.name J);
           ((Model.name E ++ "Field")%string, vB) ].
Proof.
  intros Hobj Htype HE Hg Hentry.
  assert (Hsides : junctionSides dmmf J = Some ((E, g), (E, g))).
  { unfold junctionSides. now rewrite Hobj, <- Htype, HE, Hg. }
  apply junctionEntry_emits in Hentry.
  destruct Hentry as (A & g1 & B & g2 & v1 & v2 & Hs & E1 & E2 & ->).
  rewrite Hsides in Hs. injection Hs as <- <- <- <-.
  split; [reflexivity|].
  exists v1, v2. repeat split; try assumption.
  cbn [junctionTable]. rewrite junction_object, String.eqb_refl. reflexivity.
Qed.

Lemma same_entity_junction_witness :
  relationTable
    {| relationTable := (Ref.mk "User" "friendships",
                         Ref.mk "User" "friendships");
       junctionTable := [ ("name", "Friendship");
                          ("UserField", "initiatorId") ]%string |}
  = (Ref.mk (Model.name user) "friendships",
     Ref.mk (Model.name user) "friendships")
  /\ exists vA vB,
      sideField (scalarFields friendship) user 0 = Js.Normal vA
      /\ sideField (scalarFields friendship) user 1 = Js.Normal vB
      /\ [ ("name", "Friendship"); ("UserField", "initiatorId") ]%string
         = [ ("name"%string, Model.name friendship);
             ((Model.name user ++ "Field")%string, vB) ].
Proof.
  apply (same_entity_junction friendshipSchema friendship user
           (objectField "initiator" "User" false (Some "Initiator"%string))
           (objectField "receiver" "User" false (Some "Receiver"%string))
           (objectField "friendships" "Friendship" true
                        (Some "Initiator"%string))).
  - reflexivity.
  - reflexivity.
  - reflexivity.
  - reflexivity.
  - reflexivity.
Defined.

(* ================================================================= *)
(** * Further properties of the classifiers *)

(** ** Many-to-many: coverage, order, completion, provenance *)

Lemma isJunctionTable_candidate (dmmf : DMMF) (J : Model.t) :
  isJunctionTable dmmf J = true -> length (objectFields J) = 2.
Proof.
  unfold isJunctionTable. destruct (junctionSides dmmf J) eqn:E; [|discriminate].
  intros _. now apply junctionSides_two_fields in E.
Qed.

Lemma recordsOf_skipped (dmmf : DMMF) (J : Model.t) :
  isJunctionTable dmmf J = false -> recordsOf dmmf J = [].
Proof.
  unfold isJunctionTable, recordsOf. rewrite junctionEntry_sides.
  now destruct (junctionSides dmmf J).
Qed.

Lemma recordsOf_junction (dmmf : DMMF) (J : Model.t) (e : option ManyToMany) :
  isJunctionTable dmmf J = true -> junctionEntry dmmf J = Js.Normal e ->
  exists r, recordsOf dmmf J = [r] /\ junctionName r = Some (Model.name J).
Proof.
  intros HJ He. destruct e as [r|].
  - exists r. split; [unfold recordsOf; now rewrite He|].
    now apply (junctionEntry_name dmmf).
  - exfalso. rewrite junctionEntry_sides in He. unfold isJunctionTable in HJ.
    destruct (junctionSides dmmf J) as [[[A g1] [B g2]]|]; [|discriminate].
    destruct (sideField (scalarFields J) A 0); [|discriminate].
    destruct (sideField (scalarFields J) B 1); discriminate.
Qed.

Lemma names_of_records (dmmf : DMMF) (l : list Model.t) :
  (forall J, In J l -> (length (objectFields J) =? 2)%nat = true ->
             exists e, junctionEntry dmmf J = Js.Normal e) ->
  map junctionName
      (flat_map (recordsOf dmmf)
                (filter (fun m => (length (objectFields m) =? 2)%nat) l))
  = map (fun m => Some (Model.name m)) (filter (isJunctionTable dmmf) l).
Proof.
  induction l as [|J l IH]; intros Hall; simpl; [reflexivity|].
  assert (IH' := IH (fun J' HJ' => Hall J' (or_intror HJ'))).
  destruct (isJunctionTable dmmf J) eqn:HJ.
  - pose proof (isJunctionTable_candidate dmmf J HJ) as Hc.
    rewrite Hc. simpl.
    destruct (Hall J (or_introl eq_refl)) as [e He]; [now rewrite Hc|].
    destruct (recordsOf_junction dmmf J e HJ He) as [r [-> Hname]].
    simpl. now rewrite Hname, IH'.
  - destruct (length (objectFields J) =? 2)%nat; [|assumption].
    simpl. now rewrite (recordsOf_skipped dmmf J HJ).
Qed.

(** X1.  After a run that completes, the junction names of the records are
    exactly the names of the models that pass the junction-table test, one
    record per model, in the order of the graph. *)
Theorem manyToMany_names_in_order (dmmf : DMMF) (rs : list ManyToMany) :
  getManyToManyRelations dmmf = Js.Normal rs ->
  map junctionName rs
  = map (fun m => Some (Model.name m))
        (filter (isJunctionTable dmmf) (models (datamodel dmmf))).
Proof.
  unfold getManyToManyRelations. intros Hrun.
  apply forEach_junction in Hrun. destruct Hrun as [-> Hall]. simpl.
  unfold junctionModels in *. apply names_of_records.
  intros J HJ Htwo. apply Hall. apply filter_In. now split.
Qed.

Lemma manyToMany_names_in_order_witness :
  map junctionName readmeManyToMany
  = map (fun m => Some (Model.name m))
        (filter (isJunctionTable readmeSchema)
                (models (datamodel readmeSchema))).
Proof.
  apply (manyToMany_names_in_order readmeSchema readmeManyToMany).
  reflexivity.
Defined.

Lemma sideField_defined (scalars : list Field.t) (related : Model.t)
  (i : nat) :
  i < length scalars -> exists v, sideField scalars related i = Js.Normal v.
Proof.
  intros Hi. unfold sideField.
  destruct (nth_error scalars i) as [f0|] eqn:En.
  - destruct (find (nameMentions related) scalars) as [f|].
    + destruct (String.eqb (Field.name f) ""); simpl; eauto.
    + simpl; eauto.
  - apply nth_error_None in En. lia.
Qed.

Lemma forEach_all_normal (dmmf : DMMF) (l : list Model.t) :
  (forall J, In J l -> exists e, junctionEntry dmmf J = Js.Normal e) ->
  forall acc, exists rs,
    Js.forEach (junctionCallback dmmf) l acc = Js.Normal rs.
Proof.
  induction l as [|J l IH]; intros Hall acc; simpl.
  - now exists acc.
  - destruct (Hall J (or_introl eq_refl)) as [e He].
    unfold junctionCallback at 1. rewrite He. simpl.
    apply IH. intros J' HJ'. apply Hall. now right.
Qed.

(** X2.  When every model that passes the junction-table test has at least
    two scalar fields, [getManyToManyRelations] returns normally. *)
Theorem manyToMany_completes (dmmf : DMMF) :
  (forall J, In J (models (datamodel dmmf)) ->
             isJunctionTable dmmf J = true ->
             2 <= length (scalarFields J)) ->
  exists rs, getManyToManyRelations dmmf = Js.Normal rs.
Proof.
  intros Hall. unfold getManyToManyRelations. apply forEach_all_normal.
  intros J HJ. unfold junctionModels in HJ. apply filter_In in HJ.
  destruct HJ as [Hin _]. rewrite junctionEntry_sides.
  destruct (junctionSides dmmf J) as [[[A g1] [B g2]]|] eqn:Hs; [|eauto].
  assert (Hlen : 2 <= length (scalarFields J)).
  { apply Hall; [assumption|]. unfold isJunctionTable. now rewrite Hs. }
  destruct (sideField_defined (scalarFields J) A 0) as [v1 ->]; [lia|].
  destruct (sideField_defined (scalarFields J) B 1) as [v2 ->]; [lia|].
  simpl. eauto.
Qed.

Lemma manyToMany_completes_witness :
  exists rs, getManyToManyRelations readmeSchema = Js.Normal rs.
Proof.
  apply (manyToMany_completes readmeSchema).
  simpl. intros J [<-|[<-|[<-|[<-|[<-|[]]]]]] HJ;
    try (vm_compute in HJ; discriminate).
  simpl. lia.
Defined.

Lemma reciprocalListField_some (related J : Model.t) (g : Field.t) :
  reciprocalListField related J = Some g ->
  In g (Model.fields related) /\ Field.kind g = object
  /\ Field.isList g = true /\ Field.type g = Model.name J.
Proof.
  unfold reciprocalListField. intros H. apply find_some in H.
  destruct H as [Hin Hp].
  apply andb_true_iff in Hp. destruct Hp as [Hp Hl].
  apply andb_true_iff in Hp. destruct Hp as [Hk Ht].
  apply isObject_kind in Hk. apply String.eqb_eq in Ht. tauto.
Qed.

Lemma junctionSides_some (dmmf : DMMF) (J A B : Model.t) (g1 g2 : Field.t) :
  junctionSides dmmf J = Some ((A, g1), (B, g2)) ->
  exists f1 f2,
    objectFields J = [f1; f2]
    /\ findModel (models (datamodel dmmf)) (Field.type f1) = Some A
    /\ findModel (models (datamodel dmmf)) (Field.type f2) = Some B
    /\ reciprocalListField A J = Some g1
    /\ reciprocalListField B J = Some g2.
Proof.
  unfold junctionSides.
  destruct (objectFields J) as [|f1 [|f2 [|f3 l]]]; try discriminate.
  destruct (findModel _ (Field.type f1)) as [A'|] eqn:EA; [|discriminate].
  destruct (findModel _ (Field.type f2)) as [B'|] eqn:EB; [|discriminate].
  destruct (reciprocalListField A' J) as [g1'|] eqn:E1; [|discriminate].
  destruct (reciprocalListField B' J) as [g2'|] eqn:E2; [|discriminate].
  intros [= <- <- <- <-]. now exists f1, f2.
Qed.

(** X3.  Every many-to-many record of a run that completes comes from a
    model [J] of the graph with exactly two object fields; each of its two
    [relationTable] entries names a model of the graph that one of those
    fields references, together with a list-typed object field of that
    model whose type is [J]. *)
Theorem manyToMany_provenance
  (dmmf : DMMF) (rs : list ManyToMany) (r : ManyToMany) :
  getManyToManyRelations dmmf = Js.Normal rs -> In r rs ->
  exists J f1 f2 A B g1 g2,
    In J (models (datamodel dmmf))
    /\ objectFields J = [f1; f2]
    /\ junctionName r = Some (Model.name J)
    /\ relationTable r = (Ref.mk (Model.name A) (Field.name g1),
                          Ref.mk (Model.name B) (Field.name g2))
    /\ (In A (models (datamodel dmmf)) /\ Model.name A = Field.type f1
        /\ In g1 (Model.fields A) /\ Field.kind g1 = object
        /\ Field.isList g1 = true /\ Field.type g1 = Model.name J)
    /\ (In B (models (datamodel dmmf)) /\ Model.name B = Field.type f2
        /\ In g2 (Model.fields B) /\ Field.kind g2 = object
        /\ Field.isList g2 = true /\ Field.type g2 = Model.name J).
Proof.
  intros Hrun Hr.
  destruct (record_origin dmmf rs r Hrun Hr) as [J [HJ Hentry]].
  pose proof (junctionEntry_name dmmf J r Hentry) as Hname.
  apply junctionEntry_emits in Hentry.
  destruct Hentry as (A & g1 & B & g2 & v1 & v2 & Hs & _ & _ & Hrec).
  apply junctionSides_some in Hs.
  destruct Hs as (f1 & f2 & Hobj & HA & HB & Hg1 & Hg2).
  apply findModel_some in HA. apply findModel_some in HB.
  apply reciprocalListField_some in Hg1.
  apply reciprocalListField_some in Hg2.
  exists J, f1, f2, A, B, g1, g2.
  subst r. cbn [relationTable]. intuition auto.
Qed.

Lemma manyToMany_provenance_witness :
  exists J f1 f2 A B g1 g2,
    In J (models (datamodel readmeSchema))
    /\ objectFields J = [f1; f2]
    /\ Some "EmployeeProject"%string = Some (Model.name J)
    /\ (Ref.mk "Employee" "employeeProjects",
        Ref.mk "Project" "employeeProjects")
       = (Ref.mk (Model.name A) (Field.name g1),
          Ref.mk (Model.name B) (Field.name g2))
    /\ (In A (models (datamodel readmeSchema))
        /\ Model.name A = Field.type f1
        /\ In g1 (Model.fields A) /\ Field.kind g1 = object
        /\ Field.isList g1 = true /\ Field.type g1 = Model.name J)
    /\ (In B (models (datamodel readmeSchema))
        /\ Model.name B = Field.type f2
        /\ In g2 (Model.fields B) /\ Field.kind g2 = object
        /\ Field.isList g2 = true /\ Field.type g2 = Model.name J).
Proof.
  apply (manyToMany_provenance readmeSchema readmeManyToMany
           {| relationTable := (Ref.mk "Employee" "employeeProjects",
                                Ref.mk "Project" "employeeProjects");
              junctionTable := [ ("name", "EmployeeProject");
                                 ("EmployeeField", "employeeId");
                                 ("ProjectField", "projectId") ]%string |}).
  - reflexivity.
  - simpl. auto.
Defined.

(** X4.  For every record the classifier emits, both property reads of the
    junction-table section are defined; the second is the scalar field
    chosen for side B, and the first is the one chosen for side A unless
    the two sides carry the same entity name, in which case it is side B's
    as well. *)
Theorem junctionFields_defined
  (dmmf : DMMF) (J : Model.t) (r : ManyToMany) :
  junctionEntry dmmf J = Js.Normal (Some r) ->
  exists A g1 B g2 vA vB,
    junctionSides dmmf J = Some ((A, g1), (B, g2))
    /\ sideField (scalarFields J) A 0 = Js.Normal vA
    /\ sideField (scalarFields J) B 1 = Js.Normal vB
    /\ junctionFields r
       = (Some (if String.eqb (Model.name A) (Model.name B) then vB else vA),
          Some vB).
Proof.
  intros Hentry. apply junctionEntry_emits in Hentry.
  destruct Hentry as (A & g1 & B & g2 & v1 & v2 & Hs & E1 & E2 & ->).
  exists A, g1, B, g2, v1, v2. repeat split; try assumption.
  unfold junctionFields. cbn [relationTable junctionTable fst snd Ref.name].
  change (Model.name A ++ "Field")%string with (fieldKey A).
  change (Model.name B ++ "Field")%string with (fieldKey B).
  rewrite get_set_same. f_equal.
  destruct (String.eqb (Model.name A) (Model.name B)) eqn:E.
  - apply String.eqb_eq in E. unfold fieldKey at 3. rewrite E.
    apply get_set_same.
  - rewrite get_set_other, get_set_same; [reflexivity|].
    intros Hk. apply fieldKey_inj in Hk. apply String.eqb_neq in E.
    congruence.
Qed.

Lemma junctionFields_defined_witness :
  exists A g1 B g2 vA vB,
    junctionSides friendshipSchema friendship = Some ((A, g1), (B, g2))
    /\ sideField (scalarFields friendship) A 0 = Js.Normal vA
    /\ sideField (scalarFields friendship) B 1 = Js.Normal vB
    /\ junctionFields
         {| relationTable := (Ref.mk "User" "friendships",
                              Ref.mk "User" "friendships");
            junctionTable := [ ("name", "Friendship");
                               ("UserField", "initiatorId") ]%string |}
       = (Some (if String.eqb (Model.name A) (Model.name B) then vB else vA),
          Some vB).
Proof.
  apply (junctionFields_defined friendshipSchema friendship).
  reflexivity.
Defined.

(** ** One-to-many and one-to-one: duplicates, provenance, coverage *)

Lemma NoDup_snoc {A} (l : list A) (x : A) :
  NoDup l -> ~ In x l -> NoDup (l ++ [x]).
Proof.
  induction l as [|a l IH]; simpl; intros Hnd Hx.
  - constructor; [intros [] | constructor].
  - inversion Hnd as [|? ? Ha Hl]; subst. constructor.
    + rewrite in_app_iff. simpl. intros [H|[H|[]]]; [contradiction|].
      apply Hx. now left.
    + apply IH; [assumption|]. intros H. apply Hx. now right.
Qed.

Lemma oneToManyField_NoDup (ms : list Model.t) (model : Model.t)
  (acc : list OneToMany) (field : Field.t) :
  NoDup acc -> NoDup (oneToManyField ms model acc field).
Proof.
  intros Hacc. unfold oneToManyField.
  destruct (isObject field && Field.isList field && existsb _ ms);
    [|assumption].
  destruct (findModel ms (Field.type field)) as [R|]; [|assumption].
  destruct (reciprocalField R model field) as [g|]; [|assumption].
  destruct (existsb _ acc) eqn:E; simpl; [assumption|].
  apply NoDup_snoc; [assumption|]. intros Hin.
  assert (existsb (sameOneToMany (Model.name model) (Field.name field)
                                 (Model.name R) (Field.name g)) acc = true).
  { apply existsb_exists. eexists. split; [exact Hin|].
    now apply sameOneToMany_eq. }
  congruence.
Qed.

(** X5.  The one-to-many output never contains the same record twice. *)
Theorem oneToMany_no_duplicates (dmmf : DMMF) :
  NoDup (manyToOne (getOneToManyRelations dmmf)).
Proof.
  simpl. apply fold_invariant; [|constructor].
  intros acc model. unfold oneToManyModel. apply fold_invariant.
  intros acc' field. apply oneToManyField_NoDup.
Qed.

(** X6.  Every one-to-many record pairs a list-typed object field of a
    model of the graph (the [one] side) with a singular object field of the
    model it references (the [many] side) that is typed back to the first
    model and carries the same relation name. *)
Theorem oneToMany_provenance (dmmf : DMMF) (r : OneToMany) :
  In r (manyToOne (getOneToManyRelations dmmf)) ->
  exists M f R g,
    In M (models (datamodel dmmf)) /\ In f (Model.fields M)
    /\ Field.kind f = object /\ Field.isList f = true
    /\ In R (models (datamodel dmmf)) /\ Model.name R = Field.type f
    /\ In g (Model.fields R)
    /\ Field.kind g = object /\ Field.isList g = false
    /\ Field.type g = Model.name M
    /\ Field.relationName g = Field.relationName f
    /\ r = {| many := Ref.mk (Model.name R) (Field.name g);
              one := Ref.mk (Model.name M) (Field.name f) |}.
Proof.
  intros Hr. apply oneToMany_sound in Hr.
  destruct Hr as (M & f & R & g & (HM & Hf & Hk & Hl & HR & Hg) & ->).
  apply findModel_some in HR. apply reciprocalField_some in Hg.
  exists M, f, R, g. unfold oneToManyRecord. intuition auto.
Qed.

Lemma oneToMany_provenance_witness :
  exists M f R g,
    In M (models (datamodel (scenarioA None))) /\ In f (Model.fields M)
    /\ Field.kind f = object /\ Field.isList f = true
    /\ In R (models (datamodel (scenarioA None)))
    /\ Model.name R = Field.type f
    /\ In g (Model.fields R)
    /\ Field.kind g = object /\ Field.isList g = false
    /\ Field.type g = Model.name M
    /\ Field.relationName g = Field.relationName f
    /\ {| many := Ref.mk "Employee" "department";
          one := Ref.mk "Department" "employees" |}
       = {| many := Ref.mk (Model.name R) (Field.name g);
            one := Ref.mk (Model.name M) (Field.name f) |}.
Proof.
  apply (oneToMany_provenance (scenarioA None)).
  simpl. auto.
Defined.

(** X7.  Every one-to-one record pairs two singular object fields of two
    models of the graph, each typed as the other model, with the same
    relation name. *)
Theorem oneToOne_provenance (dmmf : DMMF) (r : OneToOne) :
  In r (getOneToOneRelations dmmf) ->
  exists M f R g,
    In M (models (datamodel dmmf)) /\ In f (Model.fields M)
    /\ Field.kind f = object /\ Field.isList f = false
    /\ In R (models (datamodel dmmf)) /\ Model.name R = Field.type f
    /\ In g (Model.fields R)
    /\ Field.kind g = object /\ Field.isList g = false
    /\ Field.type g = Model.name M
    /\ Field.relationName g = Field.relationName f
    /\ r = {| table_one := Ref.mk (Model.name M) (Field.name f);
              table_two := Ref.mk (Model.name R) (Field.name g) |}.
Proof.
  intros Hr. apply oneToOne_sound in Hr.
  destruct Hr as (M & f & R & g & (HM & Hf & Hk & Hl & HR & Hg) & ->).
  apply findModel_some in HR. apply reciprocalField_some in Hg.
  exists M, f, R, g. unfold oneToOneRecord.
  destruct HR as [HRin HRname]. rewrite HRname. intuition auto.
Qed.

Lemma oneToOne_provenance_witness :
  exists M f R g,
    In M (models (datamodel documentsSchema)) /\ In f (Model.fields M)
    /\ Field.kind f = object /\ Field.isList f = false
    /\ In R (models (datamodel documentsSchema))
    /\ Model.name R = Field.type f
    /\ In g (Model.fields R)
    /\ Field.kind g = object /\ Field.isList g = false
    /\ Field.type g = Model.name M
    /\ Field.relationName g = Field.relationName f
    /\ {| table_one := Ref.mk "Person" "passport";
          table_two := Ref.mk "Passport" "owner" |}
       = {| table_one := Ref.mk (Model.name M) (Field.name f);
            table_two := Ref.mk (Model.name R) (Field.name g) |}.
Proof.
  apply (oneToOne_provenance documentsSchema).
  simpl. auto.
Defined.

(** X8.  A singular object field with a singular reciprocal is recorded at
    exactly one position of the one-to-one output, either as
    (origin, related) or as (related, origin). *)
Theorem oneToOne_recorded_once
  (dmmf : DMMF) (M : Model.t) (f : Field.t) (R : Model.t) (g : Field.t) :
  singularRelation dmmf M f R g ->
  exists i r,
    nth_error (getOneToOneRelations dmmf) i = Some r
    /\ (r = oneToOneRecord M f g \/ r = swap (oneToOneRecord M f g))
    /\ forall j r',
        nth_error (getOneToOneRelations dmmf) j = Some r' ->
        r' = oneToOneRecord M f g \/ r' = swap (oneToOneRecord M f g) ->
        j = i.
Proof.
  intros Hrel.
  assert (Hex : exists r,
             In r (getOneToOneRelations dmmf)
             /\ (r = oneToOneRecord M f g
                 \/ r = swap (oneToOneRecord M f g))).
  { destruct (oneToOne_complete dmmf M f R g Hrel) as [H|H]; eauto. }
  destruct Hex as [r [Hin Hr]].
  apply In_nth_error in Hin. destruct Hin as [i Hi].
  exists i, r. repeat split; try assumption.
  intros j r' Hj Hr'.
  pose proof (getOneToOneRelations_collapsed dmmf) as Hc.
  assert (Hsame : r' = r \/ r' = swap r).
  { destruct Hr as [-> | ->], Hr' as [-> | ->];
      rewrite ?swap_involutive; auto. }
  destruct (Nat.lt_trichotomy i j) as [Hlt|[Heq|Hgt]].
  - destruct (Hc i j r r' Hlt Hi Hj) as [H1 H2]. destruct Hsame; contradiction.
  - now symmetry.
  - destruct (Hc j i r' r Hgt Hj Hi) as [H1 H2].
    destruct Hsame as [E|E].
    + symmetry in E. contradiction.
    + exfalso. apply H2. rewrite E. symmetry. apply swap_involutive.
Qed.

Lemma oneToOne_recorded_once_witness :
  exists i r,
    nth_error (getOneToOneRelations documentsSchema) i = Some r
    /\ (r = oneToOneRecord passport
              (objectField "owner" "Person" false
                           (Some "PassportToPerson"%string))
              (objectField "passport" "Passport" false
                           (Some "PassportToPerson"%string))
        \/ r = swap (oneToOneRecord passport
                       (objectField "owner" "Person" false
                                    (Some "PassportToPerson"%string))
                       (objectField "passport" "Passport" false
                                    (Some "PassportToPerson"%string))))
    /\ forall j r',
        nth_error (getOneToOneRelations documentsSchema) j = Some r' ->
        r' = oneToOneRecord passport
               (objectField "owner" "Person" false
                            (Some "PassportToPerson"%string))
               (objectField "passport" "Passport" false
                            (Some "PassportToPerson"%string))
        \/ r' = swap (oneToOneRecord passport
                        (objectField "owner" "Person" false
                                     (Some "PassportToPerson"%string))
                        (objectField "passport" "Passport" false
                                     (Some "PassportToPerson"%string))) ->
        j = i.
Proof.
  apply (oneToOne_recorded_once documentsSchema passport _ person).
  unfold singularRelation. simpl. repeat split; auto.
Defined.

Lemma filter_none {A} (p : A -> bool) (l : list A) :
  (forall x, In x l -> p x = false) -> filter p l = [].
Proof.
  induction l as [|a l IH]; simpl; intros H; [reflexivity|].
  rewrite (H a) by now left. apply IH. intros x Hx. apply H. now right.
Qed.

(** X9.  A graph without any object field yields no relationship at all:
    the many-to-many classifier returns normally with no record, and the
    two other outputs are empty. *)
Theorem no_object_fields_no_relationships (dmmf : DMMF) :
  (forall M f, In M (models (datamodel dmmf)) -> In f (Model.fields M) ->
               Field.kind f <> object) ->
  getManyToManyRelations dmmf = Js.Normal []
  /\ manyToOne (getOneToManyRelations dmmf) = []
  /\ getOneToOneRelations dmmf = [].
Proof.
  intros Hno. repeat split.
  - unfold getManyToManyRelations, junctionModels.
    rewrite filter_none; [reflexivity|].
    intros M HM. unfold objectFields. rewrite filter_none; [reflexivity|].
    intros f Hf. destruct (isObject f) eqn:E; [|reflexivity].
    apply isObject_kind in E. exfalso. exact (Hno M f HM Hf E).
  - destruct (manyToOne (getOneToManyRelations dmmf)) as [|r l] eqn:E;
      [reflexivity|].
    assert (Hr : In r (manyToOne (getOneToManyRelations dmmf)))
      by (rewrite E; now left).
    apply oneToMany_sound in Hr.
    destruct Hr as (M & f & R & g & (HM & Hf & Hk & _) & _).
    exfalso. exact (Hno M f HM Hf Hk).
  - destruct (getOneToOneRelations dmmf) as [|r l] eqn:E; [reflexivity|].
    assert (Hr : In r (getOneToOneRelations dmmf)) by (rewrite E; now left).
    apply oneToOne_sound in Hr.
    destruct Hr as (M & f & R & g & (HM & Hf & Hk & _) & _).
    exfalso. exact (Hno M f HM Hf Hk).
Qed.

Lemma no_object_fields_no_relationships_witness :
  getManyToManyRelations (graph [customer]) = Js.Normal []
  /\ manyToOne (getOneToManyRelations (graph [customer])) = []
  /\ getOneToOneRelations (graph [customer]) = [].
Proof.
  apply (no_object_fields_no_relationships (graph [customer])).
  simpl. intros M f [<-|[]] [<-|[]]. simpl. discriminate.
Defined.

(** ** The relationship map: keys, directions, coverage *)

Lemma pushEntry_keys (map : RelMap) (k : string) (x : Entry) (k' : string) :
  In k' (List.map fst (pushEntry map k x))
  <-> In k' (List.map fst map) \/ k' = k.
Proof.
  induction map as [|[k0 es] map IH]; simpl.
  - intuition congruence.
  - destruct (String.eqb k0 k) eqn:E; simpl.
    + apply String.eqb_eq in E. subst k0. intuition congruence.
    + rewrite IH. tauto.
Qed.

Lemma pushEntry_In (map : RelMap) (k : string) (x : Entry)
  (k' : string) (es : list Entry) :
  In (k', es) (pushEntry map k x) ->
  In (k', es) map
  \/ (k' = k /\ exists es0, es = es0 ++ [x]
                            /\ (es0 = [] \/ In (k, es0) map)).
Proof.
  induction map as [|[k0 es0] map IH]; simpl.
  - intros [[= <- <-]|[]]. right. split; [reflexivity|].
    exists []. auto.
  - destruct (String.eqb k0 k) eqn:E; simpl.
    + apply String.eqb_eq in E. subst k0.
      intros [[= <- <-]|H]; [|now left; right].
      right. split; [reflexivity|]. exists es0. auto.
    + intros [H|H]; [now left; left|].
      apply IH in H. destruct H as [H|[Hk [es1 [Hes [Hnil|H]]]]].
      * now left; right.
      * right. split; [assumption|]. exists es1. auto.
      * right. split; [assumption|]. exists es1. auto.
Qed.

Lemma keyed_push (map : RelMap) (k : string) (x : Entry) :
  keyed map -> entity1 x = k -> keyed (pushEntry map k x).
Proof.
  intros [Hnd Hall] Hx. split.
  - clear Hall Hx. induction map as [|[k0 es] map IH]; simpl.
    + constructor; [intros [] | constructor].
    + simpl in Hnd. inversion Hnd as [|? ? Hnotin Hnd']; subst.
      destruct (String.eqb k0 k) eqn:E; simpl.
      * now constructor.
      * constructor; [|now apply IH].
        rewrite pushEntry_keys. intros [H|H]; [contradiction|].
        apply String.eqb_neq in E. congruence.
  - intros k' es Hin. apply pushEntry_In in Hin.
    destruct Hin as [Hin|[Hk [es0 [Hes Hes0]]]]; [now apply Hall|].
    subst k' es. split; [now destruct es0|].
    intros e He. apply in_app_or in He. destruct He as [He|[<-|[]]].
    + destruct Hes0 as [Hnil|Hes0]; [subst es0; contradiction|].
      now apply (Hall k es0).
    + assumption.
Qed.

Lemma keyed_add (map : RelMap) (e1 rel e2 det : string) :
  keyed map -> keyed (addRelationship map e1 rel e2 det).
Proof. intros H. unfold addRelationship. now apply keyed_push. Qed.

Lemma facing_involutive (s : string) : facing (facing s) = s.
Proof.
  unfold facing.
  destruct (String.eqb s ">---") eqn:E1.
  - apply String.eqb_eq in E1. now subst s.
  - destruct (String.eqb s "---<") eqn:E2.
    + apply String.eqb_eq in E2. now subst s.
    + now rewrite E1, E2.
Qed.

Lemma entries_add (map : RelMap) (e1 rel e2 det : string) (e : Entry) :
  In e (entries (addRelationship map e1 rel e2 det))
  <-> In e (entries map)
      \/ e = {| entity1 := e1; relationship := rel;
                entity2 := e2; details := det |}.
Proof. unfold addRelationship. apply entries_pushEntry. Qed.

(** Entering a relationship and its opposite keeps the map two-way. *)
Lemma twoWay_pair (map : RelMap) (a b s d1 d2 : string) :
  twoWay map ->
  twoWay (addRelationship (addRelationship map a s b d1) b (facing s) a d2).
Proof.
  intros Hm e He.
  apply entries_add in He. destruct He as [He| ->].
  - apply entries_add in He. destruct He as [He| ->].
    + destruct (Hm e He) as [e' [He' Hrest]]. exists e'.
      split; [|assumption]. apply entries_add. left. apply entries_add.
      now left.
    + eexists. split; [apply entries_add; right; reflexivity|].
      simpl. auto.
  - eexists. split.
    + apply entries_add. left. apply entries_add. right. reflexivity.
    + simpl. rewrite facing_involutive. auto.
Qed.

Section MapFacts.

Variable pluralize : string -> string.
Variable names : list (option string).

Lemma keyed_oneToMany (map : RelMap) (rel : OneToMany) :
  keyed map -> keyed (processOneToMany pluralize names map rel).
Proof.
  intros Hm. unfold processOneToMany.
  destruct (has names _ || has names _); [assumption|].
  now repeat apply keyed_add.
Qed.

Lemma keyed_oneToOne (map : RelMap) (rel : OneToOne) :
  keyed map -> keyed (processOneToOne names map rel).
Proof.
  intros Hm. unfold processOneToOne.
  destruct (has names _ || has names _); [assumption|].
  now repeat apply keyed_add.
Qed.

Lemma keyed_manyToMany (map : RelMap) (rel : ManyToMany) :
  keyed map -> keyed (processManyToMany pluralize names map rel).
Proof.
  intros Hm. unfold processManyToMany.
  destruct (has names _ || has names _); [assumption|].
  now repeat apply keyed_add.
Qed.

Lemma twoWay_oneToMany (map : RelMap) (rel : OneToMany) :
  twoWay map -> twoWay (processOneToMany pluralize names map rel).
Proof.
  intros Hm. unfold processOneToMany.
  destruct (has names _ || has names _); [assumption|].
  now apply (twoWay_pair map _ _ ">---").
Qed.

Lemma twoWay_oneToOne (map : RelMap) (rel : OneToOne) :
  twoWay map -> twoWay (processOneToOne names map rel).
Proof.
  intros Hm. unfold processOneToOne.
  destruct (has names _ || has names _); [assumption|].
  now apply (twoWay_pair map _ _ "----").
Qed.

Lemma twoWay_manyToMany (map : RelMap) (rel : ManyToMany) :
  twoWay map -> twoWay (processManyToMany pluralize names map rel).
Proof.
  intros Hm. unfold processManyToMany.
  destruct (has names _ || has names _); [assumption|].
  now apply (twoWay_pair map _ _ ">--<").
Qed.

End MapFacts.

(** X10.  In the relationship map every key occurs once, no key holds an
    empty list, and every entry is stored under the key that equals its
    [entity1]. *)
Theorem relationship_map_keyed (pluralize : string -> string) (data : Data) :
  NoDup (map fst (realEntityRelationshipsMap pluralize data))
  /\ forall k es,
      In (k, es) (realEntityRelationshipsMap pluralize data) ->
      es <> [] /\ forall e, In e es -> entity1 e = k.
Proof.
  change (keyed (realEntityRelationshipsMap pluralize data)).
  unfold realEntityRelationshipsMap. cbv zeta.
  apply (fold_invariant keyed); [intros; now apply keyed_manyToMany|].
  apply (fold_invariant keyed); [intros; now apply keyed_oneToOne|].
  apply (fold_invariant keyed); [intros; now apply keyed_oneToMany|].
  split; [constructor | intros k es []].
Qed.

(** X11.  Every entry of the relationship map has a counterpart in the
    opposite direction: entity1 and entity2 exchanged, and the symbol
    [">---"] answered by ["---<"] (the other symbols by themselves). *)
Theorem relationship_map_two_way
  (pluralize : string -> string) (data : Data) (e : Entry) :
  In e (entries (realEntityRelationshipsMap pluralize data)) ->
  exists e',
    In e' (entries (realEntityRelationshipsMap pluralize data))
    /\ entity1 e' = entity2 e /\ entity2 e' = entity1 e
    /\ relationship e' = facing (relationship e).
Proof.
  revert e. change (twoWay (realEntityRelationshipsMap pluralize data)).
  unfold realEntityRelationshipsMap. cbv zeta.
  apply (fold_invariant twoWay); [intros; now apply twoWay_manyToMany|].
  apply (fold_invariant twoWay); [intros; now apply twoWay_oneToOne|].
  apply (fold_invariant twoWay); [intros; now apply twoWay_oneToMany|].
  intros e [].
Qed.

Lemma relationship_map_two_way_witness :
  exists e',
    In e' (entries (realEntityRelationshipsMap
                      (fun s => (s ++ "s")%string)
                      (classified readmeSchema readmeManyToMany)))
    /\ entity1 e' = "Department"%string /\ entity2 e' = "Employee"%string
    /\ relationship e' = facing ">---".
Proof.
  apply (relationship_map_two_way
           (fun s => (s ++ "s")%string)
           (classified readmeSchema readmeManyToMany)
           {| entity1 := "Employee"; relationship := ">---";
              entity2 := "Department";
              details := "Employees belong to a Department" |}).
  vm_compute. auto.
Defined.

Lemma entries_step_emits {X} (step : RelMap -> X -> RelMap)
  (l : list X) (x : X) (e : Entry) :
  (forall m y e', In e' (entries m) -> In e' (entries (step m y))) ->
  In x l -> (forall m, In e (entries (step m x))) ->
  forall m, In e (entries (fold_left step l m)).
Proof.
  intros Hkeep Hin Hx m.
  apply in_split in Hin. destruct Hin as [l1 [l2 ->]].
  rewrite fold_left_app. simpl.
  apply (fold_invariant (fun m' => In e (entries m'))).
  - intros acc y. apply Hkeep.
  - apply Hx.
Qed.

Section MapCoverage.

Variable pluralize : string -> string.
Variable names : list (option string).

Lemma oneToMany_step_keeps (m : RelMap) (rel : OneToMany) (e : Entry) :
  In e (entries m) -> In e (entries (processOneToMany pluralize names m rel)).
Proof.
  intros H. unfold processOneToMany.
  destruct (has names _ || has names _); [assumption|].
  apply entries_add. left. apply entries_add. now left.
Qed.

Lemma oneToOne_step_keeps (m : RelMap) (rel : OneToOne) (e : Entry) :
  In e (entries m) -> In e (entries (processOneToOne names m rel)).
Proof.
  intros H. unfold processOneToOne.
  destruct (has names _ || has names _); [assumption|].
  apply entries_add. left. apply entries_add. now left.
Qed.

Lemma manyToMany_step_keeps (m : RelMap) (rel : ManyToMany) (e : Entry) :
  In e (entries m) -> In e (entries (processManyToMany pluralize names m rel)).
Proof.
  intros H. unfold processManyToMany.
  destruct (has names _ || has names _); [assumption|].
  apply entries_add. left. apply entries_add. now left.
Qed.

End MapCoverage.

(** X12.  No record that passes the junction filter is lost: a one-to-many,
    one-to-one or many-to-many record whose two capitalised entity names
    are not junction names has its forward entry in the relationship map,
    with the symbol and the details text of its kind. *)
Theorem accepted_records_entered
  (pluralize : string -> string) (data : Data) :
  (forall rel,
      In rel (manyToOne (oneToMany data)) ->
      has (junctionTableNames data)
          (capitalizeFirstLetter (Ref.name (many rel))) = false ->
      has (junctionTableNames data)
          (capitalizeFirstLetter (Ref.name (one rel))) = false ->
      In {| entity1 := capitalizeFirstLetter (Ref.name (many rel));
            relationship := ">---";
            entity2 := capitalizeFirstLetter (Ref.name (one rel));
            details :=
              (pluralize (capitalizeFirstLetter (Ref.name (many rel)))
               ++ " belong to a "
               ++ capitalizeFirstLetter (Ref.name (one rel)))%string |}
         (entries (realEntityRelationshipsMap pluralize data)))
  /\ (forall rel,
         In rel (oneToOne data) ->
         has (junctionTableNames data)
             (capitalizeFirstLetter (Ref.name (table_one rel))) = false ->
         has (junctionTableNames data)
             (capitalizeFirstLetter (Ref.name (table_two rel))) = false ->
         In {| entity1 := capitalizeFirstLetter (Ref.name (table_one rel));
               relationship := "----";
               entity2 := capitalizeFirstLetter (Ref.name (table_two rel));
               details :=
                 (capitalizeFirstLetter (Ref.name (table_one rel))
                  ++ " has one "
                  ++ capitalizeFirstLetter (Ref.field (table_one rel)))%string
            |}
            (entries (realEntityRelationshipsMap pluralize data)))
  /\ (forall rel,
         In rel (manyToMany data) ->
         has (junctionTableNames data)
             (capitalizeFirstLetter (Ref.name (fst (relationTable rel))))
         = false ->
         has (junctionTableNames data)
             (capitalizeFirstLetter (Ref.name (snd (relationTable rel))))
         = false ->
         In {| entity1 :=
                 capitalizeFirstLetter (Ref.name (fst (relationTable rel)));
               relationship := ">--<";
               entity2 :=
                 capitalizeFirstLetter (Ref.name (snd (relationTable rel)));
               details :=
                 (capitalizeFirstLetter (Ref.name (fst (relationTable rel)))
                  ++ " has many "
                  ++ pluralize
                       (capitalizeFirstLetter
                          (Ref.name (snd (relationTable rel))))
                  ++ " via "
                  ++ Js.interpolate (Js.get (junctionTable rel) "name"))%string
            |}
            (entries (realEntityRelationshipsMap pluralize data))).
Proof.
  unfold realEntityRelationshipsMap. cbv zeta.
  split; [|split]; intros rel Hin H1 H2.
  - apply (fold_invariant (fun m => In _ (entries m)));
      [intros acc y; apply manyToMany_step_keeps|].
    apply (fold_invariant (fun m => In _ (entries m)));
      [intros acc y; apply oneToOne_step_keeps|].
    apply entries_step_emits with (x := rel);
      [intros m y e'; apply oneToMany_step_keeps | assumption |].
    intros m. unfold processOneToMany. rewrite H1, H2. simpl.
    apply entries_add. left. apply entries_add. now right.
  - apply (fold_invariant (fun m => In _ (entries m)));
      [intros acc y; apply manyToMany_step_keeps|].
    apply entries_step_emits with (x := rel);
      [intros m y e'; apply oneToOne_step_keeps | assumption |].
    intros m. unfold processOneToOne. rewrite H1, H2. simpl.
    apply entries_add. left. apply entries_add. now right.
  - apply entries_step_emits with (x := rel);
      [intros m y e'; apply manyToMany_step_keeps | assumption |].
    intros m. unfold processManyToMany. rewrite H1, H2. simpl.
    apply entries_add. left. apply entries_add. now right.
Qed.

Lemma upperChar_idempotent (c : ascii) :
  Js.upperChar (Js.upperChar c) = Js.upperChar c.
Proof.
  destruct c as [b0 b1 b2 b3 b4 b5 b6 b7].
  destruct b0, b1, b2, b3, b4, b5, b6, b7; reflexivity.
Qed.

(** X13.  On a string whose first character is ASCII,
    [capitalizeFirstLetter] is idempotent, keeps the length of its
    argument, and returns a string whose first character is ASCII. *)
Theorem capitalizeFirstLetter_idempotent (str : string) :
  asciiInitial str ->
  capitalizeFirstLetter (capitalizeFirstLetter str)
  = capitalizeFirstLetter str
  /\ String.length (capitalizeFirstLetter str) = String.length str
  /\ asciiInitial (capitalizeFirstLetter str).
Proof.
  destruct str as [|c rest]; simpl; [now repeat split|].
  intros Hc. rewrite upperChar_idempotent. repeat split.
  unfold Js.upperChar.
  destruct ((97 <=? nat_of_ascii c) && (nat_of_ascii c <=? 122))%nat eqn:E;
    [|assumption].
  apply andb_true_iff in E. destruct E as [E1 E2].
  apply Nat.leb_le in E1, E2.
  rewrite nat_ascii_embedding by lia. lia.
Qed.

Lemma capitalizeFirstLetter_idempotent_witness :
  capitalizeFirstLetter (capitalizeFirstLetter "employee")
  = capitalizeFirstLetter "employee"
  /\ String.length (capitalizeFirstLetter "employee")
     = String.length "employee"
  /\ asciiInitial (capitalizeFirstLetter "employee").
Proof.
  apply (capitalizeFirstLetter_idempotent "employee").
  vm_compute. lia.
Defined.

(* ================================================================= *)
(** * Properties of the specification generator *)

(** ** Texts and directives *)

Lemma append_assoc (a b c : string) :
  ((a ++ b) ++ c)%string = (a ++ b ++ c)%string.
Proof. induction a as [|x a IH]; simpl; [reflexivity | now rewrite IH]. Qed.

Lemma append_empty_r (a : string) : (a ++ "")%string = a.
Proof. induction a as [|x a IH]; simpl; [reflexivity | now rewrite IH]. Qed.

(** A joined list contains each of its elements. *)
Lemma concat_contains (sep d : string) (l : list string) :
  In d l ->
  exists pre post, String.concat sep l = (pre ++ d ++ post)%string.
Proof.
  induction l as [|a l IH]; [contradiction|].
  intros [->|Hin].
  - exists ""%string. destruct l as [|b l]; simpl.
    + exists ""%string. now rewrite append_empty_r.
    + now exists (sep ++ String.concat sep (b :: l))%string.
  - destruct (IH Hin) as [pre [post E]].
    destruct l as [|b l]; [contradiction|].
    exists (a ++ sep ++ pre)%string, post.
    change (String.concat sep (a :: b :: l))
      with (a ++ sep ++ String.concat sep (b :: l))%string.
    now rewrite E, !append_assoc.
Qed.

Section GeneratorFacts.

Variable jsonOfString : string -> string.

(** The line of a field contains every directive that was pushed. *)
Lemma line_contains_directive (field : LineField.t)
  (ds : list string) (d : string) :
  directivesOf jsonOfString field = Js.Normal ds -> In d ds ->
  exists l, generateOriginalLine jsonOfString field = Js.Normal l
            /\ Js.includes l d = true.
Proof.
  intros Hds Hin. unfold generateOriginalLine. rewrite Hds. simpl.
  eexists. split; [reflexivity|].
  destruct ds as [|d0 ds']; [contradiction|].
  apply includes_spec.
  destruct (concat_contains " " d (d0 :: ds') Hin) as [pre [post E]].
  exists (lineHead field ++ " " ++ pre)%string, post.
  change (String.concat " " [lineHead field; String.concat " " (d0 :: ds')])
    with (lineHead field ++ " " ++ String.concat " " (d0 :: ds'))%string.
  now rewrite E, !append_assoc.
Qed.

(** Exactly when the default-value block throws. *)
Lemma defaultDirective_throws (ty : string) (dv : DefaultValue) :
  defaultDirective jsonOfString ty dv = Js.Throw Js.TypeError <->
  match dv with
  | VNull => negb (String.eqb ty "String" || String.eqb ty "Boolean")
  | VObject o =>
      negb (String.eqb ty "String" || String.eqb ty "DateTime"
            || String.eqb ty "Boolean")
      && match FieldDefault.args o with
         | None => true
         | Some _ => false
         end
  | _ => false
  end = true.
Proof.
  unfold defaultDirective.
  destruct (String.eqb ty "String") eqn:ES;
    [apply String.eqb_eq in ES; subst ty;
     destruct dv as [| |[x|n|b]|o]; simpl; split; discriminate|].
  destruct (String.eqb ty "DateTime") eqn:ED.
  { apply String.eqb_eq in ED; subst ty.
    destruct dv as [| |[x|n|b]|o]; simpl;
      try (split; [discriminate | discriminate]); try tauto.
    - destruct (String.eqb x "now()"); split; discriminate.
    - destruct (propertyIs (FieldDefault.name o) "now"); split; discriminate. }
  destruct (String.eqb ty "Boolean") eqn:EB;
    [apply String.eqb_eq in EB; subst ty;
     destruct dv as [| |[x|n|b]|o]; simpl; split; discriminate|].
  destruct dv as [| |[x|n|b]|o]; simpl;
    rewrite ?andb_false_r; simpl;
    try (split; [discriminate | discriminate]); try tauto.
  - destruct (String.eqb ty "Int" && String.eqb x "autoincrement()");
      split; discriminate.
  - destruct (FieldDefault.args o); split; (discriminate || reflexivity).
Qed.

Lemma fieldSpec_throws (field : DmmfField.t) :
  fieldSpec jsonOfString field = Js.Throw Js.TypeError
  <-> lineThrows field = true.
Proof.
  unfold fieldSpec, generateOriginalLine, directivesOf, lineThrows.
  cbn [LineField.hasDefaultValue LineField.type LineField.defaultValue].
  destruct (DmmfField.hasDefaultValue field); simpl.
  - rewrite <- defaultDirective_throws.
    destruct (defaultDirective jsonOfString _ _) as [d|[]]; simpl;
      split; (discriminate || reflexivity).
  - split; discriminate.
Qed.

Lemma fieldSpec_outcome (field : DmmfField.t) :
  (exists s, fieldSpec jsonOfString field = Js.Normal s
             /\ lineThrows field = false)
  \/ (fieldSpec jsonOfString field = Js.Throw Js.TypeError
      /\ lineThrows field = true).
Proof.
  destruct (fieldSpec jsonOfString field) as [s|[]] eqn:E.
  - left. exists s. split; [reflexivity|].
    destruct (lineThrows field) eqn:L; [|reflexivity].
    apply fieldSpec_throws in L. congruence.
  - right. split; [reflexivity|]. now apply fieldSpec_throws.
Qed.

Lemma reduceFields_outcome (fs : list DmmfField.t)
  (acc : list (string * FieldSpec.t)) :
  (exists out, reduceFields jsonOfString fs acc = Js.Normal out
               /\ forall f, In f fs -> lineThrows f = false)
  \/ (reduceFields jsonOfString fs acc = Js.Throw Js.TypeError
      /\ exists f, In f fs /\ lineThrows f = true).
Proof.
  revert acc; induction fs as [|f fs IH]; intros acc; simpl.
  - left. exists acc. split; [reflexivity | contradiction].
  - destruct (fieldSpec_outcome f) as [[s [-> Hs]]|[-> Hs]]; simpl.
    + destruct (IH (assign acc (Field.name (DmmfField.base f)) s))
        as [[out [-> Hall]]|[-> [f' [Hf' Ht]]]].
      * left. exists out. split; [reflexivity|].
        intros f' [<-|Hf']; [assumption | now apply Hall].
      * right. split; [reflexivity|]. exists f'. split; [now right|assumption].
    + right. split; [reflexivity|]. exists f. split; [now left|assumption].
Qed.

Lemma reduceModels_outcome (ms : list DmmfModel.t)
  (acc : list (string * ModelSpec.t)) :
  (exists out, reduceModels jsonOfString ms acc = Js.Normal out
               /\ forall m f, In m ms -> In f (DmmfModel.fields m) ->
                              lineThrows f = false)
  \/ (reduceModels jsonOfString ms acc = Js.Throw Js.TypeError
      /\ exists m f, In m ms /\ In f (DmmfModel.fields m)
                     /\ lineThrows f = true).
Proof.
  revert acc; induction ms as [|m ms IH]; intros acc; simpl.
  - left. exists acc. split; [reflexivity | intros m f []].
  - destruct (reduceFields_outcome (DmmfModel.fields m) [])
      as [[fs [-> Hfs]]|[-> [f [Hf Ht]]]]; simpl.
    + destruct (IH (assign acc (DmmfModel.name m)
                      {| ModelSpec.name := DmmfModel.name m;
                         ModelSpec.dbName := DmmfModel.dbName m;
                         ModelSpec.fields := fs |}))
        as [[out [-> Hall]]|[-> [m' [f' [Hm' [Hf' Ht]]]]]].
      * left. exists out. split; [reflexivity|].
        intros m' f' [<-|Hm'] Hf'; [now apply Hfs | now apply (Hall m')].
      * right. split; [reflexivity|]. exists m', f'. auto.
    + right. split; [reflexivity|]. exists m, f. auto.
Qed.

End GeneratorFacts.

(** X14.  [getAllTableFieldsSpec] throws a [TypeError] exactly when some
    field with [hasDefaultValue] has a null extracted default and a type
    other than String and Boolean, or a function default without [args]
    and a type other than String, DateTime and Boolean; otherwise it
    returns normally. *)
Theorem tableSpec_throws_iff
  (jsonOfString : string -> string) (ms : list DmmfModel.t) :
  getAllTableFieldsSpec jsonOfString ms = Js.Throw Js.TypeError
  <-> exists m f, In m ms /\ In f (DmmfModel.fields m)
                  /\ lineThrows f = true.
Proof.
  unfold getAllTableFieldsSpec.
  destruct (reduceModels_outcome jsonOfString ms [])
    as [[out [E Hall]]|[E Hex]]; rewrite E; split.
  - discriminate.
  - intros [m [f [Hm [Hf Ht]]]]. rewrite (Hall m f Hm Hf) in Ht. discriminate.
  - intros _. exact Hex.
  - reflexivity.
Qed.

Lemma falsyDefault_null (d : Default) :
  falsyDefault d = true -> extractDefault d = VNull.
Proof.
  destruct d as [|s|o]; simpl; [reflexivity | | discriminate].
  now destruct (truthyScalar s).
Qed.

(** X15.  A field that has a default value which is missing or falsy
    ([0], [false], the empty string) and whose type is neither String nor
    Boolean makes [getAllTableFieldsSpec] throw a [TypeError]: an
    [Int @default(0)] column is enough. *)
Theorem falsy_default_throws
  (jsonOfString : string -> string) (ms : list DmmfModel.t)
  (m : DmmfModel.t) (f : DmmfField.t) :
  In m ms -> In f (DmmfModel.fields m) ->
  DmmfField.hasDefaultValue f = true ->
  falsyDefault (DmmfField.default f) = true ->
  Field.type (DmmfField.base f) <> "String"%string ->
  Field.type (DmmfField.base f) <> "Boolean"%string ->
  getAllTableFieldsSpec jsonOfString ms = Js.Throw Js.TypeError.
Proof.
  intros Hm Hf Hd Hfalsy HS HB.
  unfold getAllTableFieldsSpec.
  destruct (reduceModels_outcome jsonOfString ms [])
    as [[out [E Hall]]|[E _]]; [|assumption].
  exfalso. specialize (Hall m f Hm Hf). unfold lineThrows in Hall.
  rewrite Hd, (falsyDefault_null _ Hfalsy) in Hall.
  apply String.eqb_neq in HS, HB. rewrite HS, HB in Hall. discriminate.
Qed.

Lemma falsy_default_throws_witness :
  getAllTableFieldsSpec (fun s => s) [counterModel] = Js.Throw Js.TypeError.
Proof.
  apply (falsy_default_throws (fun s => s) [counterModel] counterModel
           (DmmfField.mk (scalarField "count" "Int") true
                         (ScalarDefault (VNumber zero)) false None)).
  - simpl. auto.
  - simpl. auto.
  - reflexivity.
  - reflexivity.
  - simpl. discriminate.
  - simpl. discriminate.
Defined.

(** ** What the line and the descriptor of a field contain *)

Lemma includes_nonempty (l d : string) :
  Js.includes l d = true -> d <> ""%string -> l <> ""%string.
Proof.
  intros H Hd ->. simpl in H. rewrite orb_false_r in H.
  destruct d; [now apply Hd | discriminate].
Qed.

Section DescriptorFacts.

Variable jsonOfString : string -> string.

(** The descriptor of a field, from the line of the field. *)
Lemma fieldSpec_normal (field : DmmfField.t) (s : FieldSpec.t) :
  fieldSpec jsonOfString field = Js.Normal s ->
  generateOriginalLine jsonOfString (lineFieldOf field)
  = Js.Normal (FieldSpec.originalLine s)
  /\ FieldSpec.defaultValue s = extractDefault (DmmfField.default field)
  /\ FieldSpec.isSystemManaged s
     = (Field.isId (DmmfField.base field)
        && DmmfField.hasDefaultValue field
        || String.eqb (Field.type (DmmfField.base field)) "DateTime"
           && negb (String.eqb (FieldSpec.originalLine s) "")
           && Js.includes (FieldSpec.originalLine s) "@updatedAt"
        || String.eqb (Field.type (DmmfField.base field)) "DateTime"
           && negb (String.eqb (FieldSpec.originalLine s) "")
           && Js.includes (FieldSpec.originalLine s) "@default(now())").
Proof.
  unfold fieldSpec. fold (lineFieldOf field).
  destruct (generateOriginalLine jsonOfString (lineFieldOf field)) as [l|e];
    simpl; [|discriminate].
  intros [= <-]. simpl. auto.
Qed.

Lemma generateOriginalLine_directives (field : LineField.t) (l : string) :
  generateOriginalLine jsonOfString field = Js.Normal l ->
  exists ds, directivesOf jsonOfString field = Js.Normal ds.
Proof.
  unfold generateOriginalLine.
  destruct (directivesOf jsonOfString field) as [ds|e]; [|discriminate].
  intros _. now exists ds.
Qed.

Lemma directivesOf_parts (field : LineField.t) (ds : list string) :
  directivesOf jsonOfString field = Js.Normal ds ->
  exists d,
    (if LineField.hasDefaultValue field
     then defaultDirective jsonOfString (LineField.type field)
                           (LineField.defaultValue field)
     else Js.Normal []) = Js.Normal d
    /\ (forall x, In x d -> In x ds)
    /\ (LineField.isUpdatedAt field = true -> In "@updatedAt"%string ds).
Proof.
  unfold directivesOf.
  destruct (if LineField.hasDefaultValue field then _ else _) as [d|e];
    simpl; [|discriminate].
  intros [= <-]. exists d. split; [reflexivity|]. split.
  - intros x Hx. rewrite !in_app_iff. auto 10.
  - intros ->. rewrite !in_app_iff. simpl. auto 10.
Qed.

(** A line that returns normally contains the directive [d] as soon as
    the directive list does. *)
Lemma line_has (field : LineField.t) (l d : string) :
  generateOriginalLine jsonOfString field = Js.Normal l ->
  (forall ds, directivesOf jsonOfString field = Js.Normal ds -> In d ds) ->
  Js.includes l d = true.
Proof.
  intros Hl Hd.
  destruct (generateOriginalLine_directives field l Hl) as [ds Hds].
  destruct (line_contains_directive jsonOfString field ds d Hds (Hd ds Hds))
    as [l' [Hl' Hinc]].
  congruence.
Qed.

End DescriptorFacts.

(** X16.  A String or Boolean field whose default value is missing or
    falsy ([false], the empty string, [0]) gets the default value [null]
    and the directive [@default(null)] in its original line. *)
Theorem falsy_default_prints_null
  (jsonOfString : string -> string) (f : DmmfField.t) :
  DmmfField.hasDefaultValue f = true ->
  falsyDefault (DmmfField.default f) = true ->
  Field.type (DmmfField.base f) = "String"%string
  \/ Field.type (DmmfField.base f) = "Boolean"%string ->
  exists s,
    fieldSpec jsonOfString f = Js.Normal s
    /\ FieldSpec.defaultValue s = VNull
    /\ Js.includes (FieldSpec.originalLine s) "@default(null)" = true.
Proof.
  intros Hd Hfalsy Hty.
  pose proof (falsyDefault_null _ Hfalsy) as Hnull.
  destruct (fieldSpec_outcome jsonOfString f) as [[s [Hs _]]|[_ Ht]].
  - exists s. split; [assumption|].
    destruct (fieldSpec_normal jsonOfString f s Hs) as (Hl & Hdv & _).
    split; [congruence|].
    apply (line_has jsonOfString (lineFieldOf f)); [assumption|].
    intros ds Hds. apply directivesOf_parts in Hds.
    destruct Hds as (d & Hdd & Hsub & _). apply Hsub.
    cbn [lineFieldOf LineField.hasDefaultValue LineField.type
         LineField.defaultValue] in Hdd.
    rewrite Hd, Hnull in Hdd.
    destruct Hty as [E|E]; rewrite E in Hdd; simpl in Hdd;
      injection Hdd as <-; now left.
  - exfalso. unfold lineThrows in Ht. rewrite Hd, Hnull in Ht.
    destruct Hty as [E|E]; rewrite E in Ht; discriminate.
Qed.

Lemma falsy_default_prints_null_witness :
  exists s,
    fieldSpec (fun s => s) flagField = Js.Normal s
    /\ FieldSpec.defaultValue s = VNull
    /\ Js.includes (FieldSpec.originalLine s) "@default(null)" = true.
Proof.
  apply (falsy_default_prints_null (fun s => s) flagField).
  - reflexivity.
  - reflexivity.
  - right. reflexivity.
Defined.

Lemma nowDefault_directive (jsonOfString : string -> string) (d : Default) :
  nowDefault d ->
  defaultDirective jsonOfString "DateTime" (extractDefault d)
  = Js.Normal ["@default(now())"%string].
Proof.
  intros [[k v n a] [-> [Hk|[Hk Hn]]]]; simpl in *; subst; reflexivity.
Qed.

(** X17.  For a field whose descriptor is built: an identifier with a
    default value is system-managed; so is a DateTime field marked
    [isUpdatedAt], and a DateTime field whose default is [now()]; and no
    field is system-managed unless it is an identifier with a default
    value or has type DateTime. *)
Theorem system_managed_fields
  (jsonOfString : string -> string) (f : DmmfField.t) (s : FieldSpec.t) :
  fieldSpec jsonOfString f = Js.Normal s ->
  (Field.isId (DmmfField.base f) = true ->
   DmmfField.hasDefaultValue f = true ->
   FieldSpec.isSystemManaged s = true)
  /\ (Field.type (DmmfField.base f) = "DateTime"%string ->
      DmmfField.isUpdatedAt f = true ->
      FieldSpec.isSystemManaged s = true)
  /\ (Field.type (DmmfField.base f) = "DateTime"%string ->
      DmmfField.hasDefaultValue f = true ->
      nowDefault (DmmfField.default f) ->
      FieldSpec.isSystemManaged s = true)
  /\ (FieldSpec.isSystemManaged s = true ->
      (Field.isId (DmmfField.base f) = true
       /\ DmmfField.hasDefaultValue f = true)
      \/ Field.type (DmmfField.base f) = "DateTime"%string).
Proof.
  intros Hs.
  destruct (fieldSpec_normal jsonOfString f s Hs) as (Hl & _ & Hsm).
  rewrite Hsm. clear Hsm.
  assert (Hvia : forall d,
             d <> ""%string ->
             (forall ds, directivesOf jsonOfString (lineFieldOf f)
                         = Js.Normal ds -> In d ds) ->
             negb (String.eqb (FieldSpec.originalLine s) "")
             && Js.includes (FieldSpec.originalLine s) d = true).
  { intros d Hne Hd.
    pose proof (line_has jsonOfString _ _ d Hl Hd) as Hinc.
    rewrite Hinc, andb_true_r. apply negb_true_iff, String.eqb_neq.
    now apply (includes_nonempty _ d). }
  repeat split.
  - intros -> ->. reflexivity.
  - intros Hty Hup. rewrite Hty. simpl.
    rewrite (Hvia "@updatedAt"%string);
      [now rewrite orb_true_r | discriminate |].
    intros ds Hds. apply directivesOf_parts in Hds.
    destruct Hds as (d & _ & _ & Hu). now apply Hu.
  - intros Hty Hd Hnow. rewrite Hty. simpl.
    rewrite (Hvia "@default(now())"%string);
      [now rewrite !orb_true_r | discriminate |].
    intros ds Hds. apply directivesOf_parts in Hds.
    destruct Hds as (d & Hdd & Hsub & _). apply Hsub.
    cbn [lineFieldOf LineField.hasDefaultValue LineField.type
         LineField.defaultValue] in Hdd.
    rewrite Hd, Hty, (nowDefault_directive jsonOfString _ Hnow) in Hdd.
    injection Hdd as <-. now left.
  - intros H.
    destruct (Field.isId (DmmfField.base f) && DmmfField.hasDefaultValue f)
      eqn:E1.
    + apply andb_true_iff in E1. now left.
    + right. simpl in H.
      destruct (String.eqb (Field.type (DmmfField.base f)) "DateTime")
        eqn:E2; [now apply String.eqb_eq in E2 | discriminate].
Qed.

Lemma system_managed_fields_witness :
  (Field.isId (DmmfField.base createdField) = true ->
   DmmfField.hasDefaultValue createdField = true ->
   FieldSpec.isSystemManaged createdSpec = true)
  /\ (Field.type (DmmfField.base createdField) = "DateTime"%string ->
      DmmfField.isUpdatedAt createdField = true ->
      FieldSpec.isSystemManaged createdSpec = true)
  /\ (Field.type (DmmfField.base createdField) = "DateTime"%string ->
      DmmfField.hasDefaultValue createdField = true ->
      nowDefault (DmmfField.default createdField) ->
      FieldSpec.isSystemManaged createdSpec = true)
  /\ (FieldSpec.isSystemManaged createdSpec = true ->
      (Field.isId (DmmfField.base createdField) = true
       /\ DmmfField.hasDefaultValue createdField = true)
      \/ Field.type (DmmfField.base createdField) = "DateTime"%string).
Proof.
  apply (system_managed_fields (fun s => s) createdField createdSpec).
  reflexivity.
Defined.

(** X18.  An original line that is built is never empty and starts with
    the field name, a space, the type, and [[]] for a list field. *)
Theorem original_line_head
  (jsonOfString : string -> string) (field : LineField.t) (l : string) :
  generateOriginalLine jsonOfString field = Js.Normal l ->
  l <> ""%string
  /\ exists rest,
      l = (LineField.name field ++ " " ++ LineField.type field
           ++ (if LineField.isList field then "[]" else "") ++ rest)%string.
Proof.
  unfold generateOriginalLine.
  destruct (directivesOf jsonOfString field) as [ds|e]; [|discriminate].
  cbn [Js.bind]. intros [= <-].
  assert (Hhead : lineHead field <> ""%string).
  { intros E. apply (f_equal String.length) in E.
    unfold lineHead in E. rewrite !append_length in E. simpl in E. lia. }
  assert (Hgrow : forall rest, (lineHead field ++ rest)%string <> ""%string).
  { intros rest E. destruct (lineHead field); [now apply Hhead | discriminate]. }
  destruct ds as [|d ds].
  - change (String.concat " " [lineHead field]) with (lineHead field).
    split; [assumption|]. exists ""%string.
    unfold lineHead. now rewrite append_empty_r.
  - change (String.concat " " [lineHead field; String.concat " " (d :: ds)])
      with (lineHead field ++ " " ++ String.concat " " (d :: ds))%string.
    split; [apply Hgrow|].
    exists (" " ++ String.concat " " (d :: ds))%string.
    unfold lineHead. now rewrite !append_assoc.
Qed.

Lemma original_line_head_witness :
  "createdAt DateTime @default(now())"%string <> ""%string
  /\ exists rest,
      "createdAt DateTime @default(now())"%string
      = (LineField.name (lineFieldOf createdField) ++ " "
         ++ LineField.type (lineFieldOf createdField)
         ++ (if LineField.isList (lineFieldOf createdField)
             then "[]" else "") ++ rest)%string.
Proof.
  apply (original_line_head (fun s => s) (lineFieldOf createdField)).
  reflexivity.
Defined.

(** ** Reading the output object back *)

Lemma lookup_assign_same {V} (o : list (string * V)) (k : string) (v : V) :
  lookup (assign o k v) k = Some v.
Proof.
  induction o as [|[k' v'] o IH]; simpl.
  - now rewrite String.eqb_refl.
  - destruct (String.eqb k' k) eqn:E; simpl; rewrite E;
      [reflexivity | exact IH].
Qed.

Lemma lookup_assign_other {V} (o : list (string * V)) (k k' : string)
  (v : V) :
  k <> k' -> lookup (assign o k v) k' = lookup o k'.
Proof.
  intros Hne. induction o as [|[k0 v0] o IH]; simpl.
  - apply String.eqb_neq in Hne. now rewrite Hne.
  - destruct (String.eqb k0 k) eqn:E; simpl.
    + apply String.eqb_eq in E; subst k0.
      apply String.eqb_neq in Hne. now rewrite Hne.
    + destruct (String.eqb k0 k'); [reflexivity | exact IH].
Qed.

Lemma keys_assign_new {V} (o : list (string * V)) (k : string) (v : V) :
  ~ In k (map fst o) -> map fst (assign o k v) = map fst o ++ [k].
Proof.
  induction o as [|[k' v'] o IH]; simpl; intros H; [reflexivity|].
  destruct (String.eqb k' k) eqn:E.
  - apply String.eqb_eq in E. exfalso. apply H. now left.
  - simpl. f_equal. apply IH. intros Hin. apply H. now right.
Qed.

Section OutputFacts.

Variable jsonOfString : string -> string.

Lemma reduceFields_lookup (fs : list DmmfField.t)
  (acc out : list (string * FieldSpec.t)) :
  reduceFields jsonOfString fs acc = Js.Normal out ->
  NoDup (map (fun f => Field.name (DmmfField.base f)) fs) ->
  (forall k, ~ In k (map (fun f => Field.name (DmmfField.base f)) fs) ->
             lookup out k = lookup acc k)
  /\ (forall f, In f fs ->
                exists s, fieldSpec jsonOfString f = Js.Normal s
                          /\ lookup out (Field.name (DmmfField.base f))
                             = Some s).
Proof.
  revert acc; induction fs as [|f fs IH]; intros acc; simpl.
  - intros [= <-] _. split; [reflexivity | contradiction].
  - destruct (fieldSpec jsonOfString f) as [s|e] eqn:Es; simpl;
      [|discriminate].
    intros Hout Hnd. inversion Hnd as [|? ? Hnotin Hnd']; subst.
    destruct (IH _ Hout Hnd') as [Hother Hall]. split.
    + intros k Hk. rewrite Hother by tauto.
      apply lookup_assign_other. intros E. apply Hk. now left.
    + intros f' [<-|Hf'].
      * exists s. split; [assumption|].
        rewrite Hother by assumption. apply lookup_assign_same.
      * now apply Hall.
Qed.

Lemma reduceModels_lookup (ms : list DmmfModel.t)
  (acc out : list (string * ModelSpec.t)) :
  reduceModels jsonOfString ms acc = Js.Normal out ->
  NoDup (map DmmfModel.name ms) ->
  (forall k, ~ In k (map DmmfModel.name ms) -> lookup out k = lookup acc k)
  /\ (forall m, In m ms ->
                exists fs,
                  reduceFields jsonOfString (DmmfModel.fields m) []
                  = Js.Normal fs
                  /\ lookup out (DmmfModel.name m)
                     = Some {| ModelSpec.name := DmmfModel.name m;
                               ModelSpec.dbName := DmmfModel.dbName m;
                               ModelSpec.fields := fs |}).
Proof.
  revert acc; induction ms as [|m ms IH]; intros acc; simpl.
  - intros [= <-] _. split; [reflexivity | contradiction].
  - destruct (reduceFields jsonOfString (DmmfModel.fields m) [])
      as [fs|e] eqn:Ef; simpl; [|discriminate].
    intros Hout Hnd. inversion Hnd as [|? ? Hnotin Hnd']; subst.
    destruct (IH _ Hout Hnd') as [Hother Hall]. split.
    + intros k Hk. rewrite Hother by tauto.
      apply lookup_assign_other. intros E. apply Hk. now left.
    + intros m' [<-|Hm'].
      * exists fs. split; [assumption|].
        rewrite Hother by assumption. apply lookup_assign_same.
      * now apply Hall.
Qed.

Lemma reduceModels_keys (ms : list DmmfModel.t)
  (acc out : list (string * ModelSpec.t)) :
  reduceModels jsonOfString ms acc = Js.Normal out ->
  NoDup (map fst acc ++ map DmmfModel.name ms) ->
  map fst out = map fst acc ++ map DmmfModel.name ms.
Proof.
  revert acc; induction ms as [|m ms IH]; intros acc; simpl.
  - intros [= <-] _. now rewrite app_nil_r.
  - destruct (reduceFields jsonOfString (DmmfModel.fields m) [])
      as [fs|e]; simpl; [|discriminate].
    intros Hout Hnd.
    assert (Hnew : ~ In (DmmfModel.name m) (map fst acc)).
    { intros Hin. apply NoDup_remove_2 in Hnd. apply Hnd.
      apply in_or_app. now left. }
    apply IH in Hout.
    + rewrite Hout, keys_assign_new by assumption.
      now rewrite <- app_assoc.
    + rewrite keys_assign_new by assumption. now rewrite <- app_assoc.
Qed.

End OutputFacts.

(** X19.  When model names are pairwise distinct and the generator
    returns, the keys of the output are the model names in the order of
    the graph; reading a model's key gives its name and [dbName]; and when
    its field names are pairwise distinct, reading a field's key in its
    [fields] object gives the descriptor built for that field. *)
Theorem tableSpec_lookup
  (jsonOfString : string -> string) (ms : list DmmfModel.t)
  (out : list (string * ModelSpec.t)) (m : DmmfModel.t) :
  getAllTableFieldsSpec jsonOfString ms = Js.Normal out ->
  NoDup (map DmmfModel.name ms) ->
  In m ms ->
  map fst out = map DmmfModel.name ms
  /\ exists fs,
      lookup out (DmmfModel.name m)
      = Some {| ModelSpec.name := DmmfModel.name m;
                ModelSpec.dbName := DmmfModel.dbName m;
                ModelSpec.fields := fs |}
      /\ (NoDup (map (fun f => Field.name (DmmfField.base f))
                     (DmmfModel.fields m)) ->
          forall f, In f (DmmfModel.fields m) ->
                    exists s, fieldSpec jsonOfString f = Js.Normal s
                              /\ lookup fs (Field.name (DmmfField.base f))
                                 = Some s).
Proof.
  unfold getAllTableFieldsSpec. intros Hout Hnd Hm. split.
  - now apply (reduceModels_keys jsonOfString ms [] out).
  - destruct (reduceModels_lookup jsonOfString ms [] out Hout Hnd)
      as [_ Hall].
    destruct (Hall m Hm) as [fs [Hfs Hlook]].
    exists fs. split; [assumption|].
    intros Hfnd. now apply (reduceFields_lookup jsonOfString _ [] fs).
Qed.

Lemma tableSpec_lookup_witness :
  map fst noteOutput = map DmmfModel.name [noteModel]
  /\ exists fs,
      lookup noteOutput (DmmfModel.name noteModel)
      = Some {| ModelSpec.name := DmmfModel.name noteModel;
                ModelSpec.dbName := DmmfModel.dbName noteModel;
                ModelSpec.fields := fs |}
      /\ (NoDup (map (fun f => Field.name (DmmfField.base f))
                     (DmmfModel.fields noteModel)) ->
          forall f, In f (DmmfModel.fields noteModel) ->
                    exists s, fieldSpec (fun s => s) f = Js.Normal s
                              /\ lookup fs (Field.name (DmmfField.base f))
                                 = Some s).
Proof.
  apply (tableSpec_lookup (fun s => s) [noteModel] noteOutput noteModel).
  - reflexivity.
  - simpl. repeat constructor; simpl; intuition discriminate.
  - simpl. auto.
Defined.

(* ================================================================= *)
(** * Properties of the file merger *)

Section FileFacts.

Variable FileSystem : Type.
Variable resolve : string -> string.
Variable dirname : string -> string.
Variable existsSync : FileSystem -> string -> bool.
Variable readFileSync : FileSystem -> string -> option string.
Variable mkdirSync : FileSystem -> string -> FileSystem * bool.
Variable writeFileSync : FileSystem -> string -> string -> FileSystem * bool.
Variable trim : string -> string.

Lemma readAll_missing (fs : FileSystem) (filePaths : list string)
  (p : string) :
  In p filePaths -> existsSync fs (resolve p) = false ->
  forall acc, readAll FileSystem resolve existsSync readFileSync
                      fs filePaths acc = None.
Proof.
  induction filePaths as [|q rest IH]; simpl; [contradiction|].
  intros [->|Hin] Hp acc.
  - now rewrite Hp.
  - destruct (negb (existsSync fs (resolve q))); [reflexivity|].
    destruct (readFileSync fs (resolve q)); [|reflexivity].
    now apply IH.
Qed.

Lemma concat_empty_app (l1 l2 : list string) :
  String.concat "" (l1 ++ l2)
  = (String.concat "" l1 ++ String.concat "" l2)%string.
Proof.
  induction l1 as [|a l1 IH]; [reflexivity|].
  destruct l1 as [|b l1].
  - simpl. destruct l2 as [|c l2]; simpl; [now rewrite append_empty_r|].
    reflexivity.
  - change (String.concat "" ((a :: b :: l1) ++ l2))
      with (a ++ "" ++ String.concat "" ((b :: l1) ++ l2))%string.
    rewrite IH.
    change (String.concat "" (a :: b :: l1))
      with (a ++ "" ++ String.concat "" (b :: l1))%string.
    simpl. now rewrite append_assoc.
Qed.

Lemma readAll_all (fs : FileSystem) (filePaths contents : list string) :
  Forall2 (fun p c => existsSync fs (resolve p) = true
                      /\ readFileSync fs (resolve p) = Some c)
          filePaths contents ->
  forall acc, readAll FileSystem resolve existsSync readFileSync
                      fs filePaths acc
              = Some (acc ++ merged contents)%string.
Proof.
  induction 1 as [|p c ps cs [He Hr] _ IH]; intros acc; simpl.
  - unfold merged. simpl. now rewrite append_empty_r.
  - rewrite He, Hr. simpl. rewrite IH. f_equal.
    unfold merged.
    change (map (fun c0 => (c0 ++ String "010" "")%string) (c :: cs))
      with ([(c ++ String "010" "")%string]
            ++ map (fun c0 => (c0 ++ String "010" "")%string) cs).
    rewrite concat_empty_app. simpl. now rewrite !append_assoc.
Qed.

End FileFacts.

(** X20.  When one of the input files does not exist, [mergeFilesContent]
    returns [-1] and leaves the file system as it found it: no directory
    is created and nothing is written, whatever the other inputs are. *)
Theorem merge_missing_input
  (FileSystem : Type) (resolve dirname : string -> string)
  (existsSync : FileSystem -> string -> bool)
  (readFileSync : FileSystem -> string -> option string)
  (mkdirSync : FileSystem -> string -> FileSystem * bool)
  (writeFileSync : FileSystem -> string -> string -> FileSystem * bool)
  (trim : string -> string)
  (fs : FileSystem) (outputFile : string) (filePaths : list string)
  (p : string) :
  In p filePaths -> existsSync fs (resolve p) = false ->
  mergeFilesContent FileSystem resolve dirname existsSync readFileSync
                    mkdirSync writeFileSync trim fs outputFile filePaths
  = ((-1)%Z, fs).
Proof.
  intros Hin Hp. unfold mergeFilesContent.
  now rewrite (readAll_missing FileSystem resolve existsSync readFileSync
                 fs filePaths p Hin Hp).
Qed.

Lemma merge_missing_input_witness :
  mergeFilesContent (list (string * string)) (fun p => p) (fun _ => "/"%string)
                    memExists (@lookup string) memMkdir memWrite (fun s => s)
                    memFiles "out.txt" ["a.txt"; "c.txt"]%string
  = ((-1)%Z, memFiles).
Proof.
  apply (merge_missing_input (list (string * string)) (fun p => p)
           (fun _ => "/"%string) memExists (@lookup string) memMkdir
           memWrite (fun s => s) memFiles "out.txt"
           ["a.txt"; "c.txt"]%string "c.txt").
  - simpl. auto.
  - reflexivity.
Defined.

(** X21.  When every input exists and is read, the output directory
    exists and the write completes, [mergeFilesContent] returns [0] and
    the file system is the one left by writing, at the resolved output
    path, the trimmed concatenation of the inputs' contents in argument
    order, each followed by a newline. *)
Theorem merge_writes_concatenation
  (FileSystem : Type) (resolve dirname : string -> string)
  (existsSync : FileSystem -> string -> bool)
  (readFileSync : FileSystem -> string -> option string)
  (mkdirSync : FileSystem -> string -> FileSystem * bool)
  (writeFileSync : FileSystem -> string -> string -> FileSystem * bool)
  (trim : string -> string)
  (fs fs' : FileSystem) (outputFile : string)
  (filePaths contents : list string) :
  Forall2 (fun p c => existsSync fs (resolve p) = true
                      /\ readFileSync fs (resolve p) = Some c)
          filePaths contents ->
  existsSync fs (dirname (resolve outputFile)) = true ->
  writeFileSync fs (resolve outputFile) (trim (merged contents))
  = (fs', true) ->
  mergeFilesContent FileSystem resolve dirname existsSync readFileSync
                    mkdirSync writeFileSync trim fs outputFile filePaths
  = (0%Z, fs').
Proof.
  intros Hall Hdir Hwrite. unfold mergeFilesContent.
  rewrite (readAll_all FileSystem resolve existsSync readFileSync
             fs filePaths contents Hall).
  change ("" ++ merged contents)%string with (merged contents).
  cbv zeta. rewrite Hdir. cbn [negb]. now rewrite Hwrite.
Qed.

Lemma merge_writes_concatenation_witness :
  mergeFilesContent (list (string * string)) (fun p => p) (fun _ => "/"%string)
                    memExists (@lookup string) memMkdir memWrite (fun s => s)
                    memFiles "out.txt" ["a.txt"; "b.txt"]%string
  = (0%Z, assign memFiles "out.txt" (merged ["alpha"; "beta"]%string)).
Proof.
  apply (merge_writes_concatenation (list (string * string)) (fun p => p)
           (fun _ => "/"%string) memExists (@lookup string) memMkdir
           memWrite (fun s => s) memFiles
           (assign memFiles "out.txt" (merged ["alpha"; "beta"]%string))
           "out.txt" ["a.txt"; "b.txt"]%string ["alpha"; "beta"]%string).
  - repeat constructor.
  - reflexivity.
  - reflexivity.
Defined.
